(** * Handlers of [src/tournament.py] over a relational store

    A shallow embedding of the request handlers of the tournament blueprint:
    the tables are lists of rows in insertion order, the SQLAlchemy session
    is an explicit pair (committed store, session view), and a handler is a
    computation in a small state-and-exception monad whose [try/except]
    wrapper rolls the session back and answers 500. *)

From stdpp Require Import base list strings numbers sorting gmap pretty.

Open Scope Z_scope.

(** ** JSON values

    What [request.get_json()] hands to a handler: null, booleans, integers
    and strings (floating-point numbers and nested values are left out). An
    attribute assignment keeps the value as it came; what the column holds
    once the row is written is the storage layer's business. *)

Inductive jval :=
  | JNull
  | JBool (b : bool)
  | JNum (z : Z)
  | JStr (s : string).

Global Instance jval_eq_dec : EqDecision jval.
Proof. solve_decision. Defined.

(** Python truthiness, as tested by [if v] and [v or default]. *)
Definition truthy (v : jval) : bool :=
  match v with
  | JNull => false
  | JBool b => b
  | JNum z => negb (z =? 0)
  | JStr s => negb (String.eqb s "")
  end.

(** ** Rows

    The model classes live in [src/models/tournament.py]; the columns below
    are the ones the handlers read or write. A cell of type [jval] holds the
    value that a handler assigned from a request body. For the two scores and
    the notes of a match, what the column makes of the assigned value when
    the row is written is a parameter of the handlers ([coluna_placar] and
    [coluna_observacoes] below). For the columns of athletes, registrations
    and tournaments the cell keeps the assigned value; the theorems that say
    what a created row holds are stated for values of the column's kind
    (texts, integers of 64 bits, null), which the columns hold as they
    are. *)

Record Atleta := {
  atleta_id : Z;
  nome : jval;
  email : jval;
  data_nascimento : option Z;
  altura : jval;
  peso : jval;
  pais : jval;
  foto_url : jval;
  categoria : jval;
  ranking_posicao : option Z;
  ativo : option bool
}.

Record Inscricao := {
  inscricao_id : Z;
  i_torneio_id : jval;
  i_categoria_id : jval;
  i_atleta_id : jval;
  parceiro_id : jval;
  nome_equipe : jval;
  i_status : option string
}.

Record Jogo := {
  jogo_id : Z;
  j_torneio_id : Z;
  j_categoria_id : Z;
  fase : option string;
  rodada : option Z;
  equipe1_id : option Z;
  equipe2_id : option Z;
  placar_equipe1 : jval;
  placar_equipe2 : jval;
  j_status : option string;
  observacoes : jval;
  data_hora : option Z
}.

(** [estrutura] before [json.dumps]: the serialisation is kept abstract, the
    column holds the structure itself. *)
Record Estrutura := {
  participantes : list Inscricao;
  fases : list string;
  tipo : string
}.

Record Chaveamento := {
  chaveamento_id : Z;
  c_torneio_id : Z;
  c_categoria_id : Z;
  estrutura_json : Estrutura;
  data_atualizacao : option Z
}.

Record Store := {
  atletas : list Atleta;
  inscricoes : list Inscricao;
  jogos : list Jogo;
  chaveamentos : list Chaveamento
}.

Global Instance Atleta_eq_dec : EqDecision Atleta.
Proof. solve_decision. Defined.
Global Instance Inscricao_eq_dec : EqDecision Inscricao.
Proof. solve_decision. Defined.
Global Instance Jogo_eq_dec : EqDecision Jogo.
Proof. solve_decision. Defined.
Global Instance Estrutura_eq_dec : EqDecision Estrutura.
Proof. solve_decision. Defined.
Global Instance Chaveamento_eq_dec : EqDecision Chaveamento.
Proof. solve_decision. Defined.

(** ** What the handlers take from outside [src/]

    Column defaults and column types are declared with the model classes,
    the date parser and the LIMIT clause belong to the libraries; the
    handlers are stated for any choice of them. [coluna_placar] and
    [coluna_observacoes] say what the score and the notes column of a match
    hold once a value assigned to the attribute is written to the row, and
    are [None] for a value that the storage layer refuses. *)

Inductive limit_policy :=
  | NegativeIsUnbounded   (* a negative LIMIT returns every row (SQLite) *)
  | NegativeIsError.      (* a negative LIMIT is refused by the backend *)

Record Env := {
  atleta_ranking_default : option Z;
  atleta_ativo_default : option bool;
  inscricao_status_default : option string;
  jogo_placar_default : jval;
  jogo_status_default : option string;
  chaveamento_data_default : Z → option Z;
  strptime_ymd : string → option Z;
  negative_limit : limit_policy;
  coluna_placar : jval → option jval;
  coluna_observacoes : jval → option jval
}.

(** ** Exceptions, responses, the session monad *)

Inductive exn :=
  | BadRequest        (* get_json() on a body that is not JSON *)
  | KeyError (k : string)
  | TypeError
  | AttributeError
  | ValueError
  | IndexError
  | NotFound          (* werkzeug.exceptions.NotFound, raised by abort(404) *)
  | StorageError.     (* raised by the driver or the database for a value or a
                         statement it refuses *)

Inductive Body :=
  | BError (msg : string)
  | BException (e : exn)                      (* {'error': str(e)} *)
  | BAtleta (a : Atleta)
  | BAtletas (items : list Atleta) (total pages current_page : Z)
  | BRanking (ranking : list Atleta) (cat : string)
  | BChaveamento (c : Chaveamento)
  | BChaveamentoJogos (c : Chaveamento) (js : list Jogo)
  | BJogo (j : Jogo)
  | BInscricao (i : Inscricao).

Record Response := { status : Z; body : Body }.

(** [db] is what has been committed, [view] is what the session's queries
    see: [db] with the pending additions and updates applied. *)
Record Session := { db : Store; view : Store }.

Inductive outcome (A : Type) :=
  | Return (a : A)
  | Raise (e : exn).
Arguments Return {A} a.
Arguments Raise {A} e.

Definition M (A : Type) : Type := Session → outcome A * Session.

Global Instance M_ret : MRet M := λ A a s, (Return a, s).
Global Instance M_bind : MBind M := λ A B f m s,
  match m s with
  | (Return a, s') => f a s'
  | (Raise e, s') => (Raise e, s')
  end.

Definition raise {A} (e : exn) : M A := λ s, (Raise e, s).
Definition query {A} (f : Store → A) : M A := λ s, (Return (f (view s)), s).
Definition modify (f : Store → Store) : M unit :=
  λ s, (Return (), {| db := db s; view := f (view s) |}).
Definition commit : M unit := λ s, (Return (), {| db := view s; view := view s |}).
Definition rollback (s : Session) : Session := {| db := db s; view := db s |}.

(** The shape shared by every handler:
    [try: ... except Exception as e: db.session.rollback(); return 500].
    A request starts with a session that has nothing pending, and what
    outlives the request is the committed store. *)
Definition handle (h : M Response) (st : Store) : Response * Store :=
  match h {| db := st; view := st |} with
  | (Return r, s) => (r, db s)
  | (Raise e, s) => ({| status := 500; body := BException e |}, db (rollback s))
  end.

(** The read-only handlers have no rollback in their [except] clause. *)
Definition handle_ro (h : M Response) (st : Store) : Response * Store :=
  match h {| db := st; view := st |} with
  | (Return r, s) => (r, db s)
  | (Raise e, s) => ({| status := 500; body := BException e |}, db s)
  end.

(** ** Primary keys: the storage layer gives a new row the next id *)

Definition next_id (ids : list Z) : Z := 1 + foldr Z.max 0 ids.

(** ** [random.shuffle]: Fisher-Yates from the top index down to 1, the
    draws read from a tape *)

Definition randbelow (n : nat) (tape : list nat) : nat * list nat :=
  match tape with
  | [] => (0%nat, [])
  | r :: t => ((r `mod` n)%nat, t)
  end.

(** [x[i], x[j] = x[j], x[i]] *)
Definition swap {A} (x : list A) (i j : nat) : list A :=
  match x !! i, x !! j with
  | Some a, Some b => <[j:=a]> (<[i:=b]> x)
  | _, _ => x
  end.

Fixpoint shuffle_from {A} (tape : list nat) (i : nat) (x : list A) : list A :=
  match i with
  | O => x
  | S i' =>
      let '(j, tape') := randbelow (S i) tape in
      shuffle_from tape' i' (swap x i j)
  end.

Definition shuffle {A} (tape : list nat) (x : list A) : list A :=
  shuffle_from tape (length x - 1)%nat x.

(** [range(0, n, 2)] *)
Definition range2 (n : nat) : list nat :=
  (λ k, 2 * k)%nat <$> seq 0 ((n + 1) / 2)%nat.

(** ** Request data *)

(** The body of a POST request. *)
Inductive payload :=
  | NoJson                          (* not JSON: [get_json()] aborts *)
  | JsonOther                       (* JSON, but not an object *)
  | JsonObject (d : gmap string jval).

Definition get_json (p : payload) : M (option (gmap string jval)) :=
  match p with
  | NoJson => raise BadRequest
  | JsonOther => mret None
  | JsonObject d => mret (Some d)
  end.

(** [data[k]] *)
Definition subscript (data : option (gmap string jval)) (k : string) : M jval :=
  match data with
  | None => raise TypeError
  | Some d =>
      match d !! k with
      | Some v => mret v
      | None => raise (KeyError k)
      end
  end.

(** [data.get(k)] *)
Definition data_get (data : option (gmap string jval)) (k : string) : M jval :=
  match data with
  | None => raise AttributeError
  | Some d => mret (default JNull (d !! k))
  end.

(** A query-string parameter that the handler passes to [int(...)]. *)
Inductive int_arg :=
  | ArgMissing
  | ArgInt (z : Z)
  | ArgMalformed.

(** [int(request.args.get(k, dflt))] *)
Definition int_of (a : int_arg) (dflt : Z) : M Z :=
  match a with
  | ArgMissing => mret dflt
  | ArgInt z => mret z
  | ArgMalformed => raise ValueError
  end.

(** [if arg:] on [request.args.get(k)]: the text of a parameter that is
    present and not empty. *)
Definition given (a : option string) : option string :=
  match a with
  | Some s => if String.eqb s "" then None else Some s
  | None => None
  end.

(** [get_or_404]: [abort(404)] raises, it does not return. *)
Definition get_or_404 {A} (o : option A) : M A :=
  match o with
  | Some a => mret a
  | None => raise NotFound
  end.

(** ** Ordering and slicing of query results *)

(** [ranking_posicao ASC NULLS LAST] *)
Definition nulls_last_le (a b : option Z) : Prop :=
  match a, b with
  | Some x, Some y => x ≤ y
  | Some _, None => True
  | None, Some _ => False
  | None, None => True
  end.

Global Instance nulls_last_le_dec a b : Decision (nulls_last_le a b).
Proof. destruct a, b; simpl; apply _. Defined.

Definition ranking_le (a b : Atleta) : Prop :=
  nulls_last_le (ranking_posicao a) (ranking_posicao b).

Global Instance ranking_le_dec a b : Decision (ranking_le a b).
Proof. unfold ranking_le. apply _. Defined.

(** The order is a total preorder, which is what the sort needs. *)
Global Instance nulls_last_le_trans : Transitive nulls_last_le.
Proof. intros [x|] [y|] [z|]; simpl; try done. lia. Qed.

Global Instance nulls_last_le_total : Total nulls_last_le.
Proof. intros [x|] [y|]; simpl; auto. lia. Qed.

Global Instance ranking_le_trans : Transitive ranking_le.
Proof. intros a b c. unfold ranking_le. apply nulls_last_le_trans. Qed.

Global Instance ranking_le_total : Total ranking_le.
Proof. intros a b. unfold ranking_le. apply nulls_last_le_total. Qed.

(** [ORDER BY]: rows that the order does not tell apart stay in table
    order. *)
Fixpoint insere {A} (R : relation A) `{∀ x y, Decision (R x y)} (x : A)
    (l : list A) : list A :=
  match l with
  | [] => [x]
  | y :: l' => if decide (R x y) then x :: y :: l' else y :: insere R x l'
  end.

Definition ordena {A} (R : relation A) `{∀ x y, Decision (R x y)} (l : list A)
  : list A :=
  foldr (insere R) [] l.

Definition order_by_ranking (rows : list Atleta) : list Atleta :=
  ordena ranking_le rows.

Record Pagination (A : Type) := {
  items : list A;
  total : Z;
  pages : Z
}.
Arguments items {A} _.
Arguments total {A} _.
Arguments pages {A} _.

(** The integers that the driver binds to a statement are those of 64 bits;
    it refuses any other. *)
Definition fits_int64 (z : Z) : Prop := - 2 ^ 63 ≤ z < 2 ^ 63.

Global Instance fits_int64_dec z : Decision (fits_int64 z).
Proof. unfold fits_int64. apply _. Defined.

(** [query.paginate(page=, per_page=, error_out=False)] of Flask-SQLAlchemy:
    a page below 1 becomes 1 and a page size below 1 becomes 20. [paginate]
    is the page of a query that the driver accepts. *)
Definition paginate {A} (page per_page : Z) (rows : list A) : Pagination A :=
  let page := if decide (page < 1) then 1 else page in
  let per_page := if decide (per_page < 1) then 20 else per_page in
  {| items := take (Z.to_nat per_page)
                (drop (Z.to_nat ((page - 1) * per_page)) rows);
     total := Z.of_nat (length rows);
     pages := (Z.of_nat (length rows) + per_page - 1) `div` per_page |}.

(** The LIMIT and the OFFSET of the statement that fetches the page. *)
Definition page_limit (per_page : Z) : Z :=
  if decide (per_page < 1) then 20 else per_page.

Definition page_offset (page per_page : Z) : Z :=
  ((if decide (page < 1) then 1 else page) - 1) * page_limit per_page.

(** The page size and the offset go to the driver unchecked. *)
Definition paginate_query {A} (page per_page : Z) (rows : list A)
  : M (Pagination A) :=
  if decide (fits_int64 (page_limit per_page)
             ∧ fits_int64 (page_offset page per_page))
  then mret (paginate page per_page rows)
  else raise StorageError.

(** Unfolds the monad's operations in a goal that runs a handler. *)
Ltac run_session :=
  repeat (progress (unfold mbind, M_bind, query, modify, commit, mret, M_ret,
                      raise, get_json, subscript, data_get, get_or_404, int_of
                    || cbn [view db fst snd])).

(** ** Bracket routes *)

Definition confirmada (torneio_id categoria_id : Z) (i : Inscricao) : Prop :=
  i_torneio_id i = JNum torneio_id ∧ i_categoria_id i = JNum categoria_id
  ∧ i_status i = Some "confirmada".

Global Instance confirmada_dec t c i : Decision (confirmada t c i).
Proof. unfold confirmada. apply _. Defined.

Definition do_chaveamento (torneio_id categoria_id : Z) (c : Chaveamento) : Prop :=
  c_torneio_id c = torneio_id ∧ c_categoria_id c = categoria_id.

Global Instance do_chaveamento_dec t c x : Decision (do_chaveamento t c x).
Proof. unfold do_chaveamento. apply _. Defined.

Definition da_categoria (torneio_id categoria_id : Z) (j : Jogo) : Prop :=
  j_torneio_id j = torneio_id ∧ j_categoria_id j = categoria_id.

Global Instance da_categoria_dec t c j : Decision (da_categoria t c j).
Proof. unfold da_categoria. apply _. Defined.

(** [Chaveamento.query.filter_by(...).first()] *)
Definition first_chaveamento (torneio_id categoria_id : Z) (st : Store)
  : option Chaveamento :=
  head (filter (do_chaveamento torneio_id categoria_id) (chaveamentos st)).

(** Attribute assignment on the loaded bracket row. *)
Definition set_estrutura (e : Estrutura) (now : Z) (c : Chaveamento) : Chaveamento :=
  {| chaveamento_id := chaveamento_id c;
     c_torneio_id := c_torneio_id c;
     c_categoria_id := c_categoria_id c;
     estrutura_json := e;
     data_atualizacao := Some now |}.

Definition update_chaveamento (cid : Z) (e : Estrutura) (now : Z) (st : Store) : Store :=
  {| atletas := atletas st;
     inscricoes := inscricoes st;
     jogos := jogos st;
     chaveamentos :=
       (λ c, if decide (chaveamento_id c = cid) then set_estrutura e now c else c)
         <$> chaveamentos st |}.

Definition add_chaveamento (c : Chaveamento) (st : Store) : Store :=
  {| atletas := atletas st;
     inscricoes := inscricoes st;
     jogos := jogos st;
     chaveamentos := chaveamentos st ++ [c] |}.

Definition add_jogo (j : Jogo) (st : Store) : Store :=
  {| atletas := atletas st;
     inscricoes := inscricoes st;
     jogos := jogos st ++ [j];
     chaveamentos := chaveamentos st |}.

(** ** Match, athlete and registration routes: store operations *)

(** [Jogo.query.get(jogo_id)] *)
Definition get_jogo (id : Z) (st : Store) : option Jogo :=
  head (filter (λ j, jogo_id j = id) (jogos st)).

(** Writing the attributes of the loaded match back to its row. *)
Definition write_jogo (j : Jogo) (st : Store) : Store :=
  {| atletas := atletas st;
     inscricoes := inscricoes st;
     jogos := (λ r, if decide (jogo_id r = jogo_id j) then j else r) <$> jogos st;
     chaveamentos := chaveamentos st |}.

Definition set_placar_equipe1 (v : jval) (j : Jogo) : Jogo :=
  {| jogo_id := jogo_id j; j_torneio_id := j_torneio_id j;
     j_categoria_id := j_categoria_id j; fase := fase j; rodada := rodada j;
     equipe1_id := equipe1_id j; equipe2_id := equipe2_id j;
     placar_equipe1 := v; placar_equipe2 := placar_equipe2 j;
     j_status := j_status j; observacoes := observacoes j;
     data_hora := data_hora j |}.

Definition set_placar_equipe2 (v : jval) (j : Jogo) : Jogo :=
  {| jogo_id := jogo_id j; j_torneio_id := j_torneio_id j;
     j_categoria_id := j_categoria_id j; fase := fase j; rodada := rodada j;
     equipe1_id := equipe1_id j; equipe2_id := equipe2_id j;
     placar_equipe1 := placar_equipe1 j; placar_equipe2 := v;
     j_status := j_status j; observacoes := observacoes j;
     data_hora := data_hora j |}.

Definition set_status (v : string) (j : Jogo) : Jogo :=
  {| jogo_id := jogo_id j; j_torneio_id := j_torneio_id j;
     j_categoria_id := j_categoria_id j; fase := fase j; rodada := rodada j;
     equipe1_id := equipe1_id j; equipe2_id := equipe2_id j;
     placar_equipe1 := placar_equipe1 j; placar_equipe2 := placar_equipe2 j;
     j_status := Some v; observacoes := observacoes j;
     data_hora := data_hora j |}.

Definition set_observacoes (v : jval) (j : Jogo) : Jogo :=
  {| jogo_id := jogo_id j; j_torneio_id := j_torneio_id j;
     j_categoria_id := j_categoria_id j; fase := fase j; rodada := rodada j;
     equipe1_id := equipe1_id j; equipe2_id := equipe2_id j;
     placar_equipe1 := placar_equipe1 j; placar_equipe2 := placar_equipe2 j;
     j_status := j_status j; observacoes := v;
     data_hora := data_hora j |}.

(** [Atleta.query.filter_by(email=...).first()] *)
Definition atleta_com_email (e : jval) (st : Store) : option Atleta :=
  head (filter (λ a, email a = e) (atletas st)).

Definition add_atleta (a : Atleta) (st : Store) : Store :=
  {| atletas := atletas st ++ [a];
     inscricoes := inscricoes st;
     jogos := jogos st;
     chaveamentos := chaveamentos st |}.

(** [Inscricao.query.filter_by(torneio_id=, categoria_id=, atleta_id=).first()] *)
Definition inscricao_existente (t c a : jval) (st : Store) : option Inscricao :=
  head (filter (λ i, i_torneio_id i = t ∧ i_categoria_id i = c ∧ i_atleta_id i = a)
          (inscricoes st)).

Definition add_inscricao (i : Inscricao) (st : Store) : Store :=
  {| atletas := atletas st;
     inscricoes := inscricoes st ++ [i];
     jogos := jogos st;
     chaveamentos := chaveamentos st |}.

(** [Atleta.query.filter_by(ativo=True)], then the optional filters. *)
Definition atletas_ativos (st : Store) : list Atleta :=
  filter (λ a, ativo a = Some true) (atletas st).

Definition filter_by_categoria (c : option string) (rows : list Atleta) : list Atleta :=
  match given c with
  | Some s => filter (λ a, categoria a = JStr s) rows
  | None => rows
  end.

Definition filter_by_pais (c : option string) (rows : list Atleta) : list Atleta :=
  match given c with
  | Some s => filter (λ a, pais a = JStr s) rows
  | None => rows
  end.

Section handlers.
Context (env : Env).

Definition novo_jogo (id torneio_id categoria_id e1 e2 : Z) : Jogo :=
  {| jogo_id := id;
     j_torneio_id := torneio_id;
     j_categoria_id := categoria_id;
     fase := Some "primeira_fase";
     rodada := Some 1;
     equipe1_id := Some e1;
     equipe2_id := Some e2;
     placar_equipe1 := jogo_placar_default env;
     placar_equipe2 := jogo_placar_default env;
     j_status := jogo_status_default env;
     observacoes := JNull;
     data_hora := None |}.

(** One turn of [for i in range(0, len(inscricoes), 2)]. *)
Definition gerar_jogo (torneio_id categoria_id : Z) (insc : list Inscricao)
    (i : nat) : M unit :=
  if decide (i + 1 < length insc)%nat then
    match insc !! i, insc !! (i + 1)%nat with
    | Some a, Some b =>
        id ← query (λ st, next_id (jogo_id <$> jogos st));
        modify (add_jogo (novo_jogo id torneio_id categoria_id
                            (inscricao_id a) (inscricao_id b)))
    | _, _ => raise IndexError
    end
  else mret ().

Fixpoint for_each (idx : list nat) (f : nat → M unit) : M unit :=
  match idx with
  | [] => mret ()
  | i :: idx' => f i ≫= λ _, for_each idx' f
  end.

(** [POST /torneios/<torneio_id>/chaveamento/<categoria_id>/gerar] *)
Definition gerar_chaveamento_body (now : Z) (tape : list nat)
    (torneio_id categoria_id : Z) : M Response :=
  insc ← query (λ st, filter (confirmada torneio_id categoria_id) (inscricoes st));
  if decide (length insc < 2)%nat then
    mret {| status := 400; body := BError "Número insuficiente de participantes" |}
  else
    let insc := shuffle tape insc in
    let estrutura :=
      {| participantes := insc; fases := []; tipo := "eliminacao_simples" |} in
    found ← query (first_chaveamento torneio_id categoria_id);
    chaveamento ←
      match found with
      | Some c =>
          modify (update_chaveamento (chaveamento_id c) estrutura now) ≫= λ _,
          mret (set_estrutura estrutura now c)
      | None =>
          id ← query (λ st, next_id (chaveamento_id <$> chaveamentos st));
          let c := {| chaveamento_id := id;
                      c_torneio_id := torneio_id;
                      c_categoria_id := categoria_id;
                      estrutura_json := estrutura;
                      data_atualizacao := chaveamento_data_default env now |} in
          modify (add_chaveamento c) ≫= λ _, mret c
      end;
    for_each (range2 (length insc)) (gerar_jogo torneio_id categoria_id insc) ≫= λ _,
    commit ≫= λ _,
    mret {| status := 201; body := BChaveamento chaveamento |}.

Definition gerar_chaveamento (now : Z) (tape : list nat)
    (torneio_id categoria_id : Z) : Store → Response * Store :=
  handle (gerar_chaveamento_body now tape torneio_id categoria_id).

(** [GET /torneios/<torneio_id>/chaveamento/<categoria_id>] *)
Definition get_chaveamento_body (torneio_id categoria_id : Z) : M Response :=
  found ← query (first_chaveamento torneio_id categoria_id);
  match found with
  | None => mret {| status := 404; body := BError "Chaveamento não encontrado" |}
  | Some c =>
      js ← query (λ st, filter (da_categoria torneio_id categoria_id) (jogos st));
      mret {| status := 200; body := BChaveamentoJogos c js |}
  end.

Definition get_chaveamento (torneio_id categoria_id : Z)
  : Store → Response * Store :=
  handle_ro (get_chaveamento_body torneio_id categoria_id).

(** What [db.session.commit()] does with the attributes assigned to the
    match: the UPDATE binds them, the row then holds what its columns make
    of them, and a value that the storage layer refuses raises. The answer
    is built from the row as it is read back. *)
Definition flush_jogo (j : Jogo) : M Jogo :=
  match coluna_placar env (placar_equipe1 j),
        coluna_placar env (placar_equipe2 j),
        coluna_observacoes env (observacoes j) with
  | Some p1, Some p2, Some obs =>
      let j := set_observacoes obs (set_placar_equipe2 p2 (set_placar_equipe1 p1 j)) in
      modify (write_jogo j) ≫= λ _, mret j
  | _, _, _ => raise StorageError
  end.

(** [POST /jogos/<jogo_id>/resultado] *)
Definition inserir_resultado_body (p : payload) (id : Z) : M Response :=
  data ← get_json p;
  jogo ← query (get_jogo id) ≫= get_or_404;
  p1 ← subscript data "placar_equipe1";
  let jogo := set_placar_equipe1 p1 jogo in
  modify (write_jogo jogo) ≫= λ _,
  p2 ← subscript data "placar_equipe2";
  let jogo := set_placar_equipe2 p2 jogo in
  modify (write_jogo jogo) ≫= λ _,
  let jogo := set_status "finalizado" jogo in
  modify (write_jogo jogo) ≫= λ _,
  obs ← data_get data "observacoes";
  let jogo := set_observacoes obs jogo in
  modify (write_jogo jogo) ≫= λ _,
  jogo ← flush_jogo jogo;
  commit ≫= λ _,
  mret {| status := 200; body := BJogo jogo |}.

Definition inserir_resultado (p : payload) (id : Z) : Store → Response * Store :=
  handle (inserir_resultado_body p id).

(** [datetime.strptime(v, '%Y-%m-%d').date()] *)
Definition strptime (v : jval) : M (option Z) :=
  match v with
  | JStr s =>
      match strptime_ymd env s with
      | Some d => mret (Some d)
      | None => raise ValueError
      end
  | _ => raise TypeError
  end.

(** [POST /atletas] *)
Definition create_atleta_body (p : payload) : M Response :=
  data ← get_json p;
  e ← subscript data "email";
  existing ← query (atleta_com_email e);
  if existing is Some _ then
    mret {| status := 400; body := BError "Email já cadastrado" |}
  else
    nome_ ← subscript data "nome";
    email_ ← subscript data "email";
    dn ← data_get data "data_nascimento";
    nasc ← (if truthy dn then strptime dn else mret None);
    altura_ ← data_get data "altura";
    peso_ ← data_get data "peso";
    pais_ ← data_get data "pais";
    foto_ ← data_get data "foto_url";
    categoria_ ← data_get data "categoria";
    id ← query (λ st, next_id (atleta_id <$> atletas st));
    let atleta :=
      {| atleta_id := id; nome := nome_; email := email_;
         data_nascimento := nasc; altura := altura_; peso := peso_;
         pais := pais_; foto_url := foto_; categoria := categoria_;
         ranking_posicao := atleta_ranking_default env;
         ativo := atleta_ativo_default env |} in
    modify (add_atleta atleta) ≫= λ _,
    commit ≫= λ _,
    mret {| status := 201; body := BAtleta atleta |}.

Definition create_atleta (p : payload) : Store → Response * Store :=
  handle (create_atleta_body p).

(** [POST /inscricoes] *)
Definition criar_inscricao_body (p : payload) : M Response :=
  data ← get_json p;
  t ← subscript data "torneio_id";
  c ← subscript data "categoria_id";
  a ← subscript data "atleta_id";
  existing ← query (inscricao_existente t c a);
  if existing is Some _ then
    mret {| status := 400; body := BError "Atleta já inscrito nesta categoria" |}
  else
    t ← subscript data "torneio_id";
    c ← subscript data "categoria_id";
    a ← subscript data "atleta_id";
    parceiro ← data_get data "parceiro_id";
    equipe ← data_get data "nome_equipe";
    id ← query (λ st, next_id (inscricao_id <$> inscricoes st));
    let inscricao :=
      {| inscricao_id := id; i_torneio_id := t; i_categoria_id := c;
         i_atleta_id := a; parceiro_id := parceiro; nome_equipe := equipe;
         i_status := inscricao_status_default env |} in
    modify (add_inscricao inscricao) ≫= λ _,
    commit ≫= λ _,
    mret {| status := 201; body := BInscricao inscricao |}.

Definition criar_inscricao (p : payload) : Store → Response * Store :=
  handle (criar_inscricao_body p).

(** [query.limit(n).all()]: the limit goes to the driver unchecked. *)
Definition sql_limit {A} (n : Z) (rows : list A) : M (list A) :=
  if decide (fits_int64 n) then
    if decide (0 ≤ n) then mret (take (Z.to_nat n) rows)
    else
      match negative_limit env with
      | NegativeIsUnbounded => mret rows
      | NegativeIsError => raise StorageError
      end
  else raise StorageError.

(** [GET /ranking] *)
Definition get_ranking_body (cat : option string) (limit : int_arg) : M Response :=
  limit ← int_of limit 50;
  rows ← query (λ st, filter_by_categoria cat (atletas_ativos st));
  ranking ← sql_limit limit (order_by_ranking rows);
  mret {| status := 200;
          body := BRanking ranking (default "Geral" (given cat)) |}.

Definition get_ranking (cat : option string) (limit : int_arg)
  : Store → Response * Store :=
  handle_ro (get_ranking_body cat limit).

(** [GET /atletas] *)
Definition get_atletas_body (cat country : option string) (page per_page : int_arg)
  : M Response :=
  page ← int_of page 1;
  per_page ← int_of per_page 20;
  rows ← query (λ st, filter_by_pais country (filter_by_categoria cat (atletas_ativos st)));
  pg ← paginate_query page per_page (order_by_ranking rows);
  mret {| status := 200;
          body := BAtletas (items pg) (total pg) (pages pg) page |}.

Definition get_atletas (cat country : option string) (page per_page : int_arg)
  : Store → Response * Store :=
  handle_ro (get_atletas_body cat country page per_page).

End handlers.

(** * Vocabulary of the statements

    Structural counterparts of the loops, the predicates the theorems are
    stated with, and a small database to run them on. None of these is used
    by a handler; the lemmas below relate them to the handlers. *)

(** Adjacent pairs of a list; a last element without partner is dropped. *)
Fixpoint pair_up {A} (l : list A) : list (A * A) :=
  match l with
  | a :: b :: r => (a, b) :: pair_up r
  | _ => []
  end.

(** The first-round matches of a list of pairs, numbered from [id]. *)
Fixpoint novos_jogos (env : Env) (t c : Z) (id : Z)
    (ps : list (Inscricao * Inscricao)) : list Jogo :=
  match ps with
  | [] => []
  | (a, b) :: r =>
      novo_jogo env id t c (inscricao_id a) (inscricao_id b)
        :: novos_jogos env t c (id + 1) r
  end.

(** Several [add_jogo] at once. *)
Definition add_jogos (js : list Jogo) (st : Store) : Store :=
  {| atletas := atletas st;
     inscricoes := inscricoes st;
     jogos := jogos st ++ js;
     chaveamentos := chaveamentos st |}.

(** The [estrutura] dictionary of [gerar_chaveamento]. *)
Definition estrutura_de (insc : list Inscricao) : Estrutura :=
  {| participantes := insc; fases := []; tipo := "eliminacao_simples" |}.

(** The bracket row that [gerar_chaveamento] inserts when the pair has none. *)
Definition novo_chaveamento (env : Env) (now t c : Z) (e : Estrutura) (st : Store)
  : Chaveamento :=
  {| chaveamento_id := next_id (chaveamento_id <$> chaveamentos st);
     c_torneio_id := t;
     c_categoria_id := c;
     estrutura_json := e;
     data_atualizacao := chaveamento_data_default env now |}.

(** The two branches of "Criar ou atualizar chaveamento": the bracket the
    handler goes on with, and the store after the branch. *)
Definition upsert (env : Env) (now t c : Z) (e : Estrutura) (st : Store)
  : Chaveamento * Store :=
  match first_chaveamento t c st with
  | Some ch =>
      (set_estrutura e now ch, update_chaveamento (chaveamento_id ch) e now st)
  | None =>
      (novo_chaveamento env now t c e st,
       add_chaveamento (novo_chaveamento env now t c e st) st)
  end.

(** The registration ids that a list of matches refers to. *)
Definition equipes (js : list Jogo) : list (option Z) :=
  js ≫= λ j, [equipe1_id j; equipe2_id j].

(** A registration that none of the matches [js] refers to. *)
Definition sem_jogo (js : list Jogo) (i : Inscricao) : Prop :=
  Some (inscricao_id i) ∉ equipes js.

Global Instance sem_jogo_dec js i : Decision (sem_jogo js i).
Proof. unfold sem_jogo. apply _. Defined.

(** At most one bracket row per (tournament, category). *)
Definition um_por_categoria (st : Store) : Prop :=
  ∀ t c, (length (filter (do_chaveamento t c) (chaveamentos st)) ≤ 1)%nat.

(** What [update_chaveamento] does to one row. *)
Definition overwrite (cid : Z) (e : Estrutura) (now : Z) (r : Chaveamento)
  : Chaveamento :=
  if decide (chaveamento_id r = cid) then set_estrutura e now r else r.

(** The match with the scores, the status and the notes that
    [inserir_resultado] gives it. *)
Definition com_resultado (p1 p2 obs : jval) (j : Jogo) : Jogo :=
  set_observacoes obs (set_status "finalizado"
    (set_placar_equipe2 p2 (set_placar_equipe1 p1 j))).

(** What the ranking request asks as limit: 50 when the parameter is absent. *)
Definition limit_pedido (a : int_arg) : option Z :=
  match a with
  | ArgMissing => Some 50
  | ArgInt z => Some z
  | ArgMalformed => None
  end.

(** Positions ascend along the list. *)
Definition posicoes_ascendentes (l : list Atleta) : Prop :=
  ∀ (i j : nat) (a b : Atleta) (x y : Z),
    (i < j)%nat → l !! i = Some a → l !! j = Some b →
    ranking_posicao a = Some x → ranking_posicao b = Some y → x ≤ y.

(** Nobody with a position comes after somebody without one. *)
Definition sem_posicao_no_fim (l : list Atleta) : Prop :=
  ∀ (i j : nat) (a b : Atleta),
    (i < j)%nat → l !! i = Some a → l !! j = Some b →
    ranking_posicao a = None → ranking_posicao b = None.

(** ** A small database *)

(** The integer that a text of decimal digits, with or without a minus
    sign, stands for. *)
Fixpoint digitos (s : string) (acc : Z) : option Z :=
  match s with
  | EmptyString => Some acc
  | String c r =>
      let n := Z.of_nat (Ascii.nat_of_ascii c) - 48 in
      if decide (0 ≤ n ≤ 9) then digitos r (10 * acc + n) else None
  end.

Definition numero_de_texto (s : string) : option Z :=
  match s with
  | EmptyString => None
  | String c r =>
      if decide (Ascii.nat_of_ascii c = 45%nat) then
        if String.eqb r "" then None else Z.opp <$> digitos r 0
      else digitos s 0
  end.

(** An integer column of SQLite: an integer of 64 bits is held as it is, a
    larger one is refused by the driver, a boolean is held as 0 or 1, and a
    text of digits as the number it stands for, when that number fits. *)
Definition coluna_inteira (v : jval) : option jval :=
  match v with
  | JNull => Some JNull
  | JBool b => Some (JNum (if b then 1 else 0))
  | JNum z => if decide (fits_int64 z) then Some (JNum z) else None
  | JStr s =>
      match numero_de_texto s with
      | Some z => Some (if decide (fits_int64 z) then JNum z else JStr s)
      | None => Some (JStr s)
      end
  end.

(** A text column of SQLite: a text is held as it is, a number as its
    decimal text. *)
Definition coluna_textual (v : jval) : option jval :=
  match v with
  | JNull => Some JNull
  | JBool b => Some (JStr (if b then "1" else "0"))
  | JNum z => if decide (fits_int64 z) then Some (JStr (pretty z)) else None
  | JStr s => Some (JStr s)
  end.

Definition env_exemplo : Env :=
  {| atleta_ranking_default := None;
     atleta_ativo_default := Some true;
     inscricao_status_default := Some "pendente";
     jogo_placar_default := JNum 0;
     jogo_status_default := Some "agendado";
     chaveamento_data_default := λ now, Some now;
     strptime_ymd := λ _, None;
     negative_limit := NegativeIsUnbounded;
     coluna_placar := coluna_inteira;
     coluna_observacoes := coluna_textual |}.

Definition atleta_exemplo (id : Z) (mail : string) (pos : option Z) (on : bool)
  : Atleta :=
  {| atleta_id := id; nome := JStr "Atleta"; email := JStr mail;
     data_nascimento := None; altura := JNull; peso := JNull;
     pais := JStr "BR"; foto_url := JNull; categoria := JStr "open";
     ranking_posicao := pos; ativo := Some on |}.

Definition inscricao_exemplo (id cat : Z) (st : string) : Inscricao :=
  {| inscricao_id := id; i_torneio_id := JNum 1; i_categoria_id := JNum cat;
     i_atleta_id := JNum (10 + id); parceiro_id := JNull; nome_equipe := JNull;
     i_status := Some st |}.

Definition jogo_exemplo : Jogo :=
  {| jogo_id := 1; j_torneio_id := 1; j_categoria_id := 1;
     fase := Some "primeira_fase"; rodada := Some 1;
     equipe1_id := Some 1; equipe2_id := Some 2;
     placar_equipe1 := JNum 0; placar_equipe2 := JNum 0;
     j_status := Some "agendado"; observacoes := JNull; data_hora := None |}.

Definition chaveamento_exemplo : Chaveamento :=
  {| chaveamento_id := 1; c_torneio_id := 1; c_categoria_id := 1;
     estrutura_json := estrutura_de []; data_atualizacao := Some 100 |}.

Definition store_exemplo : Store :=
  {| atletas := [atleta_exemplo 1 "a@x" (Some 2) true;
                 atleta_exemplo 2 "b@x" None true;
                 atleta_exemplo 3 "c@x" (Some 1) true;
                 atleta_exemplo 4 "d@x" (Some 0) false];
     inscricoes := [inscricao_exemplo 1 1 "confirmada";
                    inscricao_exemplo 2 1 "confirmada";
                    inscricao_exemplo 3 1 "confirmada";
                    inscricao_exemplo 4 1 "confirmada";
                    inscricao_exemplo 5 1 "confirmada";
                    inscricao_exemplo 6 1 "pendente";
                    inscricao_exemplo 7 2 "confirmada"];
     jogos := [jogo_exemplo];
     chaveamentos := [chaveamento_exemplo] |}.

Definition placar_exemplo : gmap string jval :=
  {[ "placar_equipe1" := JNum 2; "placar_equipe2" := JNum 1 ]}.

Definition atleta_repetido : gmap string jval :=
  {[ "nome" := JStr "Outro"; "email" := JStr "d@x" ]}.

Definition inscricao_repetida : gmap string jval :=
  {[ "torneio_id" := JNum 1; "categoria_id" := JNum 1; "atleta_id" := JNum 11 ]}.

(** ** The routes together *)

(** The requests of the modelled routes. *)
Inductive request :=
  | GetAtletas (cat country : option string) (page per_page : int_arg)
  | PostAtleta (p : payload)
  | GetRanking (cat : option string) (limit : int_arg)
  | GetChaveamento (torneio_id categoria_id : Z)
  | PostGerarChaveamento (now : Z) (tape : list nat) (torneio_id categoria_id : Z)
  | PostResultado (p : payload) (jogo_id : Z)
  | PostInscricao (p : payload).

Definition serve (env : Env) (r : request) : Store → Response * Store :=
  match r with
  | GetAtletas cat country page per_page => get_atletas cat country page per_page
  | PostAtleta p => create_atleta env p
  | GetRanking cat limit => get_ranking env cat limit
  | GetChaveamento t c => get_chaveamento t c
  | PostGerarChaveamento now tape t c => gerar_chaveamento env now tape t c
  | PostResultado p id => inserir_resultado env p id
  | PostInscricao p => criar_inscricao env p
  end.

(** Primary keys: no id occurs twice in a table. *)
Record chaves_unicas (st : Store) : Prop := {
  atletas_pk : NoDup (atleta_id <$> atletas st);
  inscricoes_pk : NoDup (inscricao_id <$> inscricoes st);
  jogos_pk : NoDup (jogo_id <$> jogos st);
  chaveamentos_pk : NoDup (chaveamento_id <$> chaveamentos st)
}.

Definition store_vazio : Store :=
  {| atletas := []; inscricoes := []; jogos := []; chaveamentos := [] |}.

(** ** Further vocabulary: uniqueness of emails and of registrations,
    what a listing answer carries *)

(** No two stored athletes share an email. *)
Definition emails_unicos (st : Store) : Prop :=
  NoDup (email <$> atletas st).

(** The (tournament, category, athlete) triple of a registration. *)
Definition tripla (i : Inscricao) : jval * jval * jval :=
  (i_torneio_id i, i_categoria_id i, i_atleta_id i).

(** No two stored registrations share their triple. *)
Definition inscricoes_unicas (st : Store) : Prop :=
  NoDup (tripla <$> inscricoes st).

(** A JSON integer of 64 bits: an integer column holds it as it is, and the
    database compares two of them as integers. *)
Definition inteiro (v : jval) : Prop :=
  match v with
  | JNum z => fits_int64 z
  | _ => False
  end.

Global Instance inteiro_dec v : Decision (inteiro v).
Proof. destruct v; simpl; apply _. Defined.

(** A JSON string: a text column holds it as it is. *)
Definition texto (v : jval) : Prop :=
  match v with
  | JStr _ => True
  | _ => False
  end.

Global Instance texto_dec v : Decision (texto v).
Proof. destruct v; simpl; apply _. Defined.

(** Null, which is what an absent optional key gives, or a value of the
    kind [P]. *)
Definition nulo_ou (P : jval → Prop) (v : jval) : Prop := v = JNull ∨ P v.

Global Instance nulo_ou_dec P `{∀ v, Decision (P v)} v : Decision (nulo_ou P v).
Proof. unfold nulo_ou. apply _. Defined.

(** The registration table as its integer columns have it: the three ids of
    every stored registration are integers. *)
Definition inscricoes_tipadas (st : Store) : Prop :=
  Forall (λ i, inteiro (i_torneio_id i) ∧ inteiro (i_categoria_id i)
               ∧ inteiro (i_atleta_id i)) (inscricoes st).

(** The athlete table as its email column has it: every stored email is a
    text, or null. *)
Definition emails_tipados (st : Store) : Prop :=
  Forall (λ a, nulo_ou texto (email a)) (atletas st).

(** The optional values of an athlete-creation body that the columns hold
    as they are: no height and no weight, and for country, picture and
    category nothing or a text. *)
Definition opcionais_do_atleta (d : gmap string jval) : Prop :=
  default JNull (d !! "altura") = JNull
  ∧ default JNull (d !! "peso") = JNull
  ∧ nulo_ou texto (default JNull (d !! "pais"))
  ∧ nulo_ou texto (default JNull (d !! "foto_url"))
  ∧ nulo_ou texto (default JNull (d !! "categoria")).

Global Instance opcionais_do_atleta_dec d : Decision (opcionais_do_atleta d).
Proof. unfold opcionais_do_atleta. apply _. Defined.

(** The optional values of a registration body that the columns hold as
    they are: for the partner nothing or an integer, for the team name
    nothing or a text. *)
Definition opcionais_da_inscricao (d : gmap string jval) : Prop :=
  nulo_ou inteiro (default JNull (d !! "parceiro_id"))
  ∧ nulo_ou texto (default JNull (d !! "nome_equipe")).

Global Instance opcionais_da_inscricao_dec d : Decision (opcionais_da_inscricao d).
Proof. unfold opcionais_da_inscricao. apply _. Defined.

(** The athletes a listing or ranking answer carries (none for any other
    answer). *)
Definition atletas_da_resposta (r : Response) : list Atleta :=
  match body r with
  | BAtletas l _ _ _ => l
  | BRanking l _ => l
  | _ => []
  end.

(** The value of the [data_nascimento] expression of [create_atleta] for a
    body [d]: [Some None] without a date, [Some (Some dt)] for a date that
    parses, [None] when the expression raises. *)
Definition data_do_corpo (env : Env) (d : gmap string jval) : option (option Z) :=
  match default JNull (d !! "data_nascimento") with
  | JStr s =>
      if String.eqb s "" then Some None
      else match strptime_ymd env s with
           | Some dt => Some (Some dt)
           | None => None
           end
  | v => if truthy v then None else Some None
  end.

(** The athlete row that [create_atleta] builds from a body. *)
Definition atleta_do_corpo (env : Env) (d : gmap string jval) (nasc : option Z)
    (st : Store) : Atleta :=
  {| atleta_id := next_id (atleta_id <$> atletas st);
     nome := default JNull (d !! "nome");
     email := default JNull (d !! "email");
     data_nascimento := nasc;
     altura := default JNull (d !! "altura");
     peso := default JNull (d !! "peso");
     pais := default JNull (d !! "pais");
     foto_url := default JNull (d !! "foto_url");
     categoria := default JNull (d !! "categoria");
     ranking_posicao := atleta_ranking_default env;
     ativo := atleta_ativo_default env |}.

(** The registration row that [criar_inscricao] builds from a body. *)
Definition inscricao_do_corpo (env : Env) (d : gmap string jval) (st : Store)
  : Inscricao :=
  {| inscricao_id := next_id (inscricao_id <$> inscricoes st);
     i_torneio_id := default JNull (d !! "torneio_id");
     i_categoria_id := default JNull (d !! "categoria_id");
     i_atleta_id := default JNull (d !! "atleta_id");
     parceiro_id := default JNull (d !! "parceiro_id");
     nome_equipe := default JNull (d !! "nome_equipe");
     i_status := inscricao_status_default env |}.

(** The integer a handler gets from [int(request.args.get(k, dflt))], if
    any. *)
Definition valor (a : int_arg) (dflt : Z) : option Z :=
  match a with
  | ArgMissing => Some dflt
  | ArgInt z => Some z
  | ArgMalformed => None
  end.

(** The rows [get_atletas] paginates: active, filtered, ordered. *)
Definition atletas_listados (cat country : option string) (st : Store) : list Atleta :=
  order_by_ranking (filter_by_pais country (filter_by_categoria cat (atletas_ativos st))).

(** What a request for page [p] of size [k] answers with, as a list. *)
Definition pagina (cat country : option string) (k : Z) (st : Store) (p : nat)
  : list Atleta :=
  atletas_da_resposta (get_atletas cat country (ArgInt (Z.of_nat p)) (ArgInt k) st).1.

(** * The other routes

    The tournament routes and the match and registration listings of a
    tournament. Tournaments and categories are two more tables; the handlers
    below run in the same kind of session, over the larger database. *)

Record Torneio := {
  torneio_id : Z;
  t_nome : jval;
  descricao : jval;
  local : jval;
  data_inicio : option Z;
  data_fim : option Z;
  tipo_chaveamento : jval;
  max_participantes : jval;
  premio_total : jval;
  organizador_id : jval;
  t_status : option string
}.

(** Of a category the handlers read the id and the tournament. *)
Record Categoria := {
  categoria_id : Z;
  cat_torneio_id : Z
}.

Record Database := {
  store : Store;
  torneios : list Torneio;
  categorias : list Categoria
}.

(** What these routes take from outside [src/]: the default of the
    tournament's status column; whether the backend orders NULL before every
    value ([true]: SQLite, MySQL) or after ([false]: PostgreSQL); and how it
    compares an integer column with the text of a query parameter, [None]
    when it refuses the text. *)
Record Backend := {
  torneio_status_default : option string;
  nulls_smallest : bool;
  text_filter : string → option (jval → bool)
}.

Inductive Corpo :=
  | CException (e : exn)                      (* {'error': str(e)} *)
  | CTorneio (t : Torneio)
  | CTorneios (items : list Torneio) (total pages current_page : Z)
  | CTorneioCategorias (t : Torneio) (cats : list (Categoria * Z))
      (* each category with the [total_inscricoes] the handler sets on it *)
  | CJogos (js : list Jogo)
  | CInscricoes (l : list Inscricao).

Record Resposta := { codigo : Z; corpo : Corpo }.

(** The read-only wrapper of [handle_ro], for these answers. *)
Definition responder_ro (h : M Resposta) (st : Store) : Resposta * Store :=
  match h {| db := st; view := st |} with
  | (Return r, s) => (r, db s)
  | (Raise e, s) => ({| codigo := 500; corpo := CException e |}, db s)
  end.

(** [column ASC] on a nullable column. *)
Definition asc (nulls_first : bool) (a b : option Z) : Prop :=
  match a, b with
  | Some x, Some y => x ≤ y
  | None, None => True
  | None, Some _ => nulls_first = true
  | Some _, None => nulls_first = false
  end.

Global Instance asc_dec nf a b : Decision (asc nf a b).
Proof. destruct a, b; simpl; apply _. Defined.

Global Instance asc_trans nf : Transitive (asc nf).
Proof. intros [x|] [y|] [z|]; simpl; try done; try lia; congruence. Qed.

Global Instance asc_total nf : Total (asc nf).
Proof. intros [x|] [y|]; simpl; auto; [lia|destruct nf; auto..]. Qed.

Section other_routes.
Context (env : Env) (be : Backend).

(** [Jogo.data_hora.asc()] *)
Definition data_hora_asc (a b : Jogo) : Prop :=
  asc (nulls_smallest be) (data_hora a) (data_hora b).

Global Instance data_hora_asc_dec a b : Decision (data_hora_asc a b).
Proof. unfold data_hora_asc. apply _. Defined.

Global Instance data_hora_asc_trans : Transitive data_hora_asc.
Proof. intros a b c. unfold data_hora_asc. apply asc_trans. Qed.

Global Instance data_hora_asc_total : Total data_hora_asc.
Proof. intros a b. unfold data_hora_asc. apply asc_total. Qed.

(** [Torneio.data_inicio.desc()]: the ascending order, reversed. *)
Definition data_inicio_desc (a b : Torneio) : Prop :=
  asc (nulls_smallest be) (data_inicio b) (data_inicio a).

Global Instance data_inicio_desc_dec a b : Decision (data_inicio_desc a b).
Proof. unfold data_inicio_desc. apply _. Defined.

Global Instance data_inicio_desc_trans : Transitive data_inicio_desc.
Proof. intros a b c ? ?. unfold data_inicio_desc in *. by etrans. Qed.

Global Instance data_inicio_desc_total : Total data_inicio_desc.
Proof. intros a b. unfold data_inicio_desc. apply asc_total. Qed.

(** [query.filter_by(categoria_id=categoria_id)] with the text of the query
    parameter, when one is given. *)
Definition filter_by_text {A} (col : A → jval) (arg : option string)
    (rows : list A) : M (list A) :=
  match given arg with
  | None => mret rows
  | Some s =>
      match text_filter be s with
      | Some f => mret (filter (λ r, f (col r) = true) rows)
      | None => raise StorageError
      end
  end.

(** [GET /torneios/<torneio_id>/jogos] *)
Definition get_jogos_torneio_body (torneio_id : Z) (categoria_id status : option string)
  : M Resposta :=
  rows ← query (λ st, filter (λ j, j_torneio_id j = torneio_id) (jogos st));
  rows ← filter_by_text (λ j, JNum (j_categoria_id j)) categoria_id rows;
  let rows :=
    match given status with
    | Some s => filter (λ j, j_status j = Some s) rows
    | None => rows
    end in
  mret {| codigo := 200; corpo := CJogos (ordena data_hora_asc rows) |}.

Definition get_jogos_torneio (torneio_id : Z) (categoria_id status : option string)
  : Store → Resposta * Store :=
  responder_ro (get_jogos_torneio_body torneio_id categoria_id status).

(** [GET /torneios/<torneio_id>/inscricoes] *)
Definition get_inscricoes_torneio_body (torneio_id : Z) (categoria_id : option string)
  : M Resposta :=
  rows ← query (λ st, filter (λ i, i_torneio_id i = JNum torneio_id) (inscricoes st));
  rows ← filter_by_text i_categoria_id categoria_id rows;
  mret {| codigo := 200; corpo := CInscricoes rows |}.

Definition get_inscricoes_torneio (torneio_id : Z) (categoria_id : option string)
  : Store → Resposta * Store :=
  responder_ro (get_inscricoes_torneio_body torneio_id categoria_id).

End other_routes.

(** The session over the larger database. *)
Record SessionD := { dbD : Database; viewD : Database }.

Definition MD (A : Type) : Type := SessionD → outcome A * SessionD.

Global Instance MD_ret : MRet MD := λ A a s, (Return a, s).
Global Instance MD_bind : MBind MD := λ A B f m s,
  match m s with
  | (Return a, s') => f a s'
  | (Raise e, s') => (Raise e, s')
  end.

Definition queryD {A} (f : Database → A) : MD A := λ s, (Return (f (viewD s)), s).
Definition modifyD (f : Database → Database) : MD unit :=
  λ s, (Return (), {| dbD := dbD s; viewD := f (viewD s) |}).
Definition commitD : MD unit := λ s, (Return (), {| dbD := viewD s; viewD := viewD s |}).

Definition with_store (st : Store) (d : Database) : Database :=
  {| store := st; torneios := torneios d; categorias := categorias d |}.

(** A computation on the four tables, run inside the larger session. *)
Definition lift {A} (m : M A) : MD A := λ s,
  match m {| db := store (dbD s); view := store (viewD s) |} with
  | (o, s') =>
      (o, {| dbD := with_store (db s') (dbD s);
             viewD := with_store (view s') (viewD s) |})
  end.


(** [try ... except Exception: return 500] *)
Definition handle_roD (h : MD Resposta) (d : Database) : Resposta * Database :=
  match h {| dbD := d; viewD := d |} with
  | (Return r, s) => (r, dbD s)
  | (Raise e, s) => ({| codigo := 500; corpo := CException e |}, dbD s)
  end.




(** [data.get(k, dflt)] *)
Definition data_get_default (data : option (gmap string jval)) (k : string)
    (dflt : jval) : M jval :=
  match data with
  | None => raise AttributeError
  | Some d => mret (default dflt (d !! k))
  end.

Section tournament_routes.
Context (env : Env) (be : Backend).

(** [GET /torneios] *)
Definition get_torneios_body (status : option string) (page per_page : int_arg)
  : MD Resposta :=
  page ← lift (int_of page 1);
  per_page ← lift (int_of per_page 10);
  rows ← queryD (λ d,
            match given status with
            | Some s => filter (λ t, t_status t = Some s) (torneios d)
            | None => torneios d
            end);
  pg ← lift (paginate_query page per_page (ordena (data_inicio_desc be) rows));
  mret {| codigo := 200;
          corpo := CTorneios (items pg) (total pg) (pages pg) page |}.

Definition get_torneios (status : option string) (page per_page : int_arg)
  : Database → Resposta * Database :=
  handle_roD (get_torneios_body status page per_page).





End tournament_routes.

(** Unfolds the operations of the larger session too. *)
Ltac run_sessionD :=
  repeat (progress (unfold mbind, MD_bind, M_bind, queryD, modifyD, commitD, lift,
                      mret, MD_ret, M_ret, raise, get_json, subscript, data_get,
                      data_get_default, get_or_404, int_of
                    || cbn [viewD dbD view db fst snd])).

(** ** Vocabulary for the other routes *)


(** A match passes the [status] parameter: it has that status, or the
    parameter is absent or empty. *)
Definition com_status (status : option string) (j : Jogo) : Prop :=
  match given status with
  | Some s => j_status j = Some s
  | None => True
  end.

Global Instance com_status_dec status j : Decision (com_status status j).
Proof. unfold com_status. destruct (given status); apply _. Defined.

(** Start dates descend along the list, among the tournaments that have
    one. *)
Definition datas_descendentes (l : list Torneio) : Prop :=
  ∀ (i k : nat) (a b : Torneio) (x y : Z),
    (i < k)%nat → l !! i = Some a → l !! k = Some b →
    data_inicio a = Some x → data_inicio b = Some y → y ≤ x.

(** A tournament passes the [status] parameter. *)
Definition torneio_com_status (status : option string) (t : Torneio) : Prop :=
  match given status with
  | Some s => t_status t = Some s
  | None => True
  end.

Global Instance torneio_com_status_dec status t : Decision (torneio_com_status status t).
Proof. unfold torneio_com_status. destruct (given status); apply _. Defined.




(** ** A small database for the other routes *)


(** SQLite compares an integer column with the number that the text of the
    parameter stands for. *)
Definition backend_exemplo : Backend :=
  {| torneio_status_default := Some "planejado";
     nulls_smallest := true;
     text_filter := λ s, match numero_de_texto s with
                         | Some z => Some (λ v, bool_decide (v = JNum z))
                         | None => Some (λ _, false)
                         end |}.

Definition torneio_exemplo : Torneio :=
  {| torneio_id := 1; t_nome := JStr "Aberto"; descricao := JNull; local := JNull;
     data_inicio := Some 19000; data_fim := Some 19002;
     tipo_chaveamento := JStr "eliminacao_simples"; max_participantes := JNull;
     premio_total := JNull; organizador_id := JNull; t_status := Some "aberto" |}.

Definition database_exemplo : Database :=
  {| store := store_exemplo;
     torneios := [torneio_exemplo];
     categorias := [{| categoria_id := 1; cat_torneio_id := 1 |};
                    {| categoria_id := 2; cat_torneio_id := 1 |}] |}.

Definition atleta_novo : gmap string jval :=
  {[ "nome" := JStr "Nova"; "email" := JStr "n@x" ]}.

Definition inscricao_nova : gmap string jval :=
  {[ "torneio_id" := JNum 1; "categoria_id" := JNum 1; "atleta_id" := JNum 99 ]}.

Definition placar_outro : gmap string jval :=
  {[ "placar_equipe1" := JNum 0; "placar_equipe2" := JNum 3;
     "observacoes" := JStr "wo" ]}.

(** A first score that no 64-bit column holds: 2^63. *)
Definition placar_grande : gmap string jval :=
  {[ "placar_equipe1" := JNum 9223372036854775808; "placar_equipe2" := JNum 1 ]}.


(** Settles a decidable closed proposition by evaluation. *)
Ltac by_computation := apply (bool_decide_unpack _); vm_compute; reflexivity.

(** * Properties *)

(** ** The shuffle permutes *)

Lemma swap_Permutation {A} (x : list A) (i j : nat) : swap x i j ≡ₚ x.
Proof.
  unfold swap.
  destruct (x !! i) as [a|] eqn:Hi; [|done].
  destruct (x !! j) as [b|] eqn:Hj; [|done].
  by apply Permutation_insert_swap.
Qed.

Lemma shuffle_from_Permutation {A} (i : nat) :
  ∀ (tape : list nat) (x : list A), shuffle_from tape i x ≡ₚ x.
Proof.
  induction i as [|i IH]; intros tape x; [done|].
  cbn [shuffle_from]. destruct (randbelow _ tape) as [j tape'].
  rewrite IH. apply swap_Permutation.
Qed.

Lemma shuffle_Permutation {A} (tape : list nat) (x : list A) : shuffle tape x ≡ₚ x.
Proof. apply shuffle_from_Permutation. Qed.

Lemma shuffle_length {A} (tape : list nat) (x : list A) :
  length (shuffle tape x) = length x.
Proof. by rewrite shuffle_Permutation. Qed.

(** ** Fresh primary keys *)

Lemma next_id_gt (ids : list Z) (i : Z) : i ∈ ids → i < next_id ids.
Proof.
  unfold next_id. induction ids as [|k ids IH]; simpl.
  - by intros ?%elem_of_nil.
  - intros [->|Hin]%elem_of_cons; [lia|]. specialize (IH Hin). lia.
Qed.

Lemma next_id_fresh (ids : list Z) : next_id ids ∉ ids.
Proof. intros Hin%next_id_gt. lia. Qed.

Lemma foldr_max_base (m : Z) (ids : list Z) :
  0 ≤ m → foldr Z.max m ids = Z.max m (foldr Z.max 0 ids).
Proof. intros Hm. induction ids as [|k ids IH]; simpl; lia. Qed.

Lemma next_id_pos (ids : list Z) : 1 ≤ next_id ids.
Proof. unfold next_id. induction ids as [|k ids IH]; simpl; lia. Qed.

Lemma next_id_snoc (ids : list Z) :
  next_id (ids ++ [next_id ids]) = next_id ids + 1.
Proof.
  pose proof (next_id_pos ids) as Hpos. unfold next_id in *.
  rewrite foldr_app. simpl. rewrite foldr_max_base by lia. lia.
Qed.

(** ** The pairing loop, structurally *)

Lemma add_jogos_nil st : add_jogos [] st = st.
Proof. destruct st. unfold add_jogos. simpl. by rewrite app_nil_r. Qed.

Lemma add_jogos_cons j js st : add_jogos (j :: js) st = add_jogos js (add_jogo j st).
Proof. unfold add_jogos, add_jogo. simpl. by rewrite <-app_assoc. Qed.

Lemma pair_up_length {A} (l : list A) : length (pair_up l) = (length l / 2)%nat.
Proof.
  induction l as [l IH] using (induction_ltof1 _ length).
  destruct l as [|a [|b r]]; [done..|].
  cbn [pair_up length]. rewrite IH by (unfold ltof; simpl; lia).
  change (S (S (length r))) with (1 * 2 + length r)%nat.
  rewrite Nat.add_comm, Nat.div_add by lia. lia.
Qed.

Lemma pair_up_flatten {A} (l : list A) :
  (pair_up l ≫= λ p, [p.1; p.2]) = take (2 * (length l / 2)) l.
Proof.
  induction l as [l IH] using (induction_ltof1 _ length).
  destruct l as [|a [|b r]]; [done..|].
  cbn [pair_up length]. rewrite bind_cons. rewrite IH by (unfold ltof; simpl; lia).
  change (S (S (length r))) with (1 * 2 + length r)%nat.
  rewrite (Nat.add_comm (1 * 2)), Nat.div_add by lia.
  replace (2 * (length r / 2 + 1))%nat with (S (S (2 * (length r / 2)))) by lia.
  done.
Qed.

Section loop.
Context (env : Env) (t c : Z) (insc : list Inscricao).

Lemma gerar_jogo_pair (k : nat) (a b : Inscricao) (s : Session) :
  insc !! (2 * k)%nat = Some a →
  insc !! (2 * k + 1)%nat = Some b →
  gerar_jogo env t c insc (2 * k) s =
    (Return (),
     {| db := db s;
        view := add_jogo (novo_jogo env (next_id (jogo_id <$> jogos (view s))) t c
                            (inscricao_id a) (inscricao_id b)) (view s) |}).
Proof.
  intros Ha Hb. unfold gerar_jogo.
  apply lookup_lt_Some in Hb as Hlt.
  rewrite decide_True by lia. rewrite Ha, Hb. done.
Qed.

Lemma gerar_jogo_last (k : nat) (s : Session) :
  (length insc ≤ 2 * k + 1)%nat →
  gerar_jogo env t c insc (2 * k) s = (Return (), s).
Proof. intros Hle. unfold gerar_jogo. by rewrite decide_False by lia. Qed.

Lemma for_each_gerar_jogo (n : nat) :
  ∀ (k : nat) (s : Session),
    (k + n = (length insc + 1) / 2)%nat →
    for_each ((λ k, 2 * k)%nat <$> seq k n) (gerar_jogo env t c insc) s =
      (Return (),
       {| db := db s;
          view := add_jogos
                    (novos_jogos env t c (next_id (jogo_id <$> jogos (view s)))
                       (pair_up (drop (2 * k) insc)))
                    (view s) |}).
Proof.
  induction n as [|n IH]; intros k s Hk.
  - assert (length insc ≤ 2 * k)%nat as Hlen.
    { pose proof (Nat.div_mod_eq (length insc + 1) 2) as E.
      pose proof (Nat.mod_upper_bound (length insc + 1) 2). lia. }
    rewrite drop_ge by done. simpl. rewrite add_jogos_nil. by destruct s.
  - assert (2 * k + 1 ≤ length insc)%nat as Hlen.
    { pose proof (Nat.div_mod_eq (length insc + 1) 2) as E.
      pose proof (Nat.mod_upper_bound (length insc + 1) 2). lia. }
    cbn [seq fmap list_fmap for_each]. unfold mbind, M_bind.
    destruct (decide (2 * k + 1 < length insc)%nat) as [Hlt|Hge].
    + destruct (lookup_lt_is_Some_2 insc (2 * k)) as [a Ha]; [lia|].
      destruct (lookup_lt_is_Some_2 insc (2 * k + 1)) as [b Hb]; [lia|].
      rewrite (gerar_jogo_pair k a b) by done.
      rewrite (IH (S k)) by lia. cbn [db view].
      rewrite (drop_S _ a (2 * k)) by done.
      replace (S (2 * k)) with (2 * k + 1)%nat by lia.
      rewrite (drop_S _ b (2 * k + 1)) by done.
      replace (S (2 * k + 1)) with (2 * S k)%nat by lia.
      cbn [pair_up novos_jogos]. rewrite add_jogos_cons. do 3 f_equal.
      unfold add_jogo; cbn [jogos]. rewrite fmap_app. cbn [fmap list_fmap].
      f_equal. apply next_id_snoc.
    + rewrite gerar_jogo_last by lia.
      rewrite (IH (S k)) by lia.
      rewrite (drop_ge _ (2 * S k)) by lia.
      destruct (lookup_lt_is_Some_2 insc (2 * k)) as [a Ha]; [lia|].
      rewrite (drop_S _ a (2 * k)) by done.
      rewrite (drop_ge _ (S (2 * k))) by lia. done.
Qed.

Lemma for_range2_gerar_jogo (s : Session) :
  for_each (range2 (length insc)) (gerar_jogo env t c insc) s =
    (Return (),
     {| db := db s;
        view := add_jogos
                  (novos_jogos env t c (next_id (jogo_id <$> jogos (view s)))
                     (pair_up insc))
                  (view s) |}).
Proof. unfold range2. by rewrite (for_each_gerar_jogo _ 0%nat s) by lia. Qed.

End loop.

(** ** Bracket generation as one equation *)

Lemma upsert_jogos env now t c e st : jogos (upsert env now t c e st).2 = jogos st.
Proof. unfold upsert. by destruct (first_chaveamento t c st). Qed.

Lemma upsert_inscricoes env now t c e st :
  inscricoes (upsert env now t c e st).2 = inscricoes st.
Proof. unfold upsert. by destruct (first_chaveamento t c st). Qed.

Lemma upsert_atletas env now t c e st :
  atletas (upsert env now t c e st).2 = atletas st.
Proof. unfold upsert. by destruct (first_chaveamento t c st). Qed.

Section gerar.
Context (env : Env) (now : Z) (tape : list nat) (t c : Z) (st : Store).

Lemma gerar_chaveamento_few :
  (length (filter (confirmada t c) (inscricoes st)) < 2)%nat →
  gerar_chaveamento env now tape t c st =
    ({| status := 400; body := BError "Número insuficiente de participantes" |}, st).
Proof.
  intros Hlt. unfold gerar_chaveamento, handle, gerar_chaveamento_body.
  unfold mbind, M_bind, query. cbn [view db].
  by rewrite decide_True by done.
Qed.

Lemma gerar_chaveamento_ok :
  (2 ≤ length (filter (confirmada t c) (inscricoes st)))%nat →
  gerar_chaveamento env now tape t c st =
    let insc := shuffle tape (filter (confirmada t c) (inscricoes st)) in
    let up := upsert env now t c (estrutura_de insc) st in
    ({| status := 201; body := BChaveamento up.1 |},
     add_jogos (novos_jogos env t c (next_id (jogo_id <$> jogos st)) (pair_up insc))
       up.2).
Proof.
  intros Hge. unfold gerar_chaveamento, handle, gerar_chaveamento_body.
  unfold mbind at 1. unfold M_bind at 1. unfold query at 1. cbn [view db].
  rewrite decide_False by lia.
  unfold mbind at 1. unfold M_bind at 1. unfold query at 1. cbn [view db].
  unfold upsert, estrutura_de.
  destruct (first_chaveamento t c st) as [ch|]; cbn zeta;
    unfold mbind, M_bind, modify, query, commit, mret, M_ret; cbn [view db];
    rewrite for_range2_gerar_jogo; cbn [view db fst snd]; done.
Qed.

Lemma gerar_chaveamento_status :
  status (gerar_chaveamento env now tape t c st).1 = 201 ↔ (2 ≤ length (filter (confirmada t c) (inscricoes st)))%nat.
Proof.
  destruct (decide (length (filter (confirmada t c) (inscricoes st)) < 2)%nat) as [Hlt|Hge].
  - rewrite gerar_chaveamento_few by done. simpl. split; [done|lia].
  - rewrite gerar_chaveamento_ok by lia. simpl. split; [lia|done].
Qed.

End gerar.

(** ** Facts about pairs and teams *)

Lemma novos_jogos_length env t c ps : ∀ id, length (novos_jogos env t c id ps) = length ps.
Proof. induction ps as [|[a b] ps IH]; intros id; simpl; [done|]. by rewrite IH. Qed.

Lemma novos_jogos_ids env t c ps :
  ∀ id, Forall (λ j, id ≤ jogo_id j) (novos_jogos env t c id ps).
Proof.
  induction ps as [|[a b] ps IH]; intros id; simpl; constructor; simpl; [lia|].
  eapply Forall_impl; [apply IH|]. simpl. intros; lia.
Qed.

Lemma novos_jogos_shape env t c ps :
  ∀ id, Forall2 (λ j p,
            j_torneio_id j = t ∧ j_categoria_id j = c
            ∧ fase j = Some "primeira_fase" ∧ rodada j = Some 1
            ∧ equipe1_id j = Some (inscricao_id p.1)
            ∧ equipe2_id j = Some (inscricao_id p.2))
          (novos_jogos env t c id ps) ps.
Proof.
  induction ps as [|[a b] ps IH]; intros id; simpl; constructor; [|apply IH].
  by split_and!.
Qed.

Lemma equipes_novos_jogos env t c ps :
  ∀ id, equipes (novos_jogos env t c id ps)
        = (Some ∘ inscricao_id) <$> (ps ≫= λ p, [p.1; p.2]).
Proof.
  unfold equipes. induction ps as [|[a b] ps IH]; intros id; [done|].
  cbn [novos_jogos]. rewrite !bind_cons, fmap_app, IH. done.
Qed.

Lemma pair_up_distinct {A B} (f : A → B) (l : list A) :
  NoDup (f <$> l) →
  Forall (λ p, p.1 ∈ l ∧ p.2 ∈ l ∧ f p.1 ≠ f p.2) (pair_up l).
Proof.
  induction l as [l IH] using (induction_ltof1 _ length).
  destruct l as [|a [|b r]]; [constructor..|].
  cbn [pair_up fmap list_fmap]. intros Hnd.
  apply NoDup_cons in Hnd as [Ha Hnd]. apply NoDup_cons in Hnd as [Hb Hnd].
  constructor.
  - simpl. split_and!; [set_solver..|]. intros Heq. apply Ha. rewrite Heq. left.
  - eapply Forall_impl; [apply IH; [unfold ltof; simpl; lia|done]|].
    simpl. intros p (? & ? & ?). split_and!; [set_solver..|done].
Qed.

Lemma filter_none {A} (P : A → Prop) `{∀ x, Decision (P x)} (l : list A) :
  (∀ x, x ∈ l → ¬ P x) → filter P l = [].
Proof.
  induction l as [|y l IH]; intros Hl; [done|].
  rewrite filter_cons, decide_False by (apply Hl; left).
  apply IH. intros x Hx. apply Hl. by right.
Qed.

Lemma filter_every {A} (P : A → Prop) `{∀ x, Decision (P x)} (l : list A) :
  (∀ x, x ∈ l → P x) → filter P l = l.
Proof.
  induction l as [|y l IH]; intros Hl; [done|].
  rewrite filter_cons, decide_True by (apply Hl; left).
  f_equal. apply IH. intros x Hx. apply Hl. by right.
Qed.

Lemma filter_not_in_prefix {A B} `{EqDecision B} (f : A → B) (l1 l2 : list A) :
  NoDup (f <$> (l1 ++ l2)) →
  filter (λ x, f x ∉ f <$> l1) (l1 ++ l2) = l2.
Proof.
  rewrite fmap_app. intros (_ & Hdisj & _)%NoDup_app.
  rewrite filter_app, filter_none, filter_every; [done| |].
  - intros x Hx Hin. apply (Hdisj _ Hin). by apply list_elem_of_fmap_2.
  - intros x Hx Hn. apply Hn. by apply list_elem_of_fmap_2.
Qed.

Lemma filter_not_in_take {A B} `{EqDecision B} (f : A → B) (l : list A) (m : nat) :
  NoDup (f <$> l) →
  filter (λ x, f x ∉ f <$> take m l) l = drop m l.
Proof.
  intros Hnd. pose proof (filter_not_in_prefix f (take m l) (drop m l)) as H.
  rewrite take_drop in H. by apply H.
Qed.

Lemma two_halves (n : nat) : (n - 2 * (n / 2) = n `mod` 2)%nat.
Proof. pose proof (Nat.div_mod_eq n 2). lia. Qed.

Lemma confirmadas_NoDup t c st :
  NoDup (inscricao_id <$> inscricoes st) →
  NoDup (inscricao_id <$> filter (confirmada t c) (inscricoes st)).
Proof.
  intros Hnd. eapply sublist_NoDup; [exact Hnd|].
  apply fmap_sublist, sublist_filter.
Qed.

(** C1. Bracket generation on a (tournament, category) pair with [N >= 2]
    confirmed registrations, in a store whose registration ids are unique
    (the primary key), answers 201 and appends exactly [N / 2] matches to the
    match table. Each new match has a fresh id, belongs to the pair, has phase
    "primeira_fase" and round 1, and links the ids of two confirmed
    registrations of the pair, which differ. No registration is linked twice,
    the number of confirmed registrations that no new match refers to is
    [N mod 2], and when [N] is odd exactly one registration is left out. *)
Theorem gerar_chaveamento_first_round (env : Env) (now : Z) (tape : list nat)
    (t c : Z) (st : Store) :
  let conf := filter (confirmada t c) (inscricoes st) in
  let N := length conf in
  let out := gerar_chaveamento env now tape t c st in
  NoDup (inscricao_id <$> inscricoes st) →
  (2 ≤ N)%nat →
  status out.1 = 201
  ∧ ∃ novos : list Jogo,
      jogos out.2 = jogos st ++ novos
      ∧ length novos = (N / 2)%nat
      ∧ Forall (λ j, jogo_id j ∉ jogo_id <$> jogos st) novos
      ∧ Forall (λ j, j_torneio_id j = t ∧ j_categoria_id j = c
                     ∧ fase j = Some "primeira_fase" ∧ rodada j = Some 1) novos
      ∧ Forall (λ j, ∃ a b, a ∈ conf ∧ b ∈ conf
                     ∧ equipe1_id j = Some (inscricao_id a)
                     ∧ equipe2_id j = Some (inscricao_id b)
                     ∧ inscricao_id a ≠ inscricao_id b) novos
      ∧ NoDup (equipes novos)
      ∧ length (filter (sem_jogo novos) conf) = (N `mod` 2)%nat
      ∧ (Nat.Odd N → ∃ i, filter (sem_jogo novos) conf = [i]).
Proof.
  intros conf N out Hpk HN. subst out.
  rewrite gerar_chaveamento_ok by done. fold conf. cbn zeta. cbn [fst snd status].
  split; [done|].
  set (insc := shuffle tape conf).
  set (nid := next_id (jogo_id <$> jogos st)).
  assert (insc ≡ₚ conf) as Hperm by apply shuffle_Permutation.
  assert (NoDup (inscricao_id <$> insc)) as Hnd.
  { rewrite Hperm. by apply confirmadas_NoDup. }
  assert (length insc = N) as Hlen by (by rewrite Hperm).
  exists (novos_jogos env t c nid (pair_up insc)).
  assert (length (filter (sem_jogo (novos_jogos env t c nid (pair_up insc))) conf)
          = (N `mod` 2)%nat) as Hleft.
  { rewrite (list_filter_iff _ (λ x, inscricao_id x ∉
               inscricao_id <$> take (2 * (N / 2)) insc)).
    - transitivity (length (filter (λ x, inscricao_id x ∉
               inscricao_id <$> take (2 * (N / 2)) insc) insc)).
      { apply Permutation_length, filter_Permutation. by symmetry. }
      rewrite filter_not_in_take by done.
      rewrite length_drop, Hlen. apply two_halves.
    - intros i. unfold sem_jogo.
      rewrite equipes_novos_jogos, pair_up_flatten, Hlen, list_fmap_compose.
      rewrite (list_elem_of_fmap Some). split.
      + intros Hn Hin. apply Hn. eauto.
      + intros Hn (y & [= <-] & Hin). done. }
  split_and!.
  - unfold add_jogos. cbn [jogos]. by rewrite upsert_jogos.
  - by rewrite novos_jogos_length, pair_up_length, Hlen.
  - eapply Forall_impl; [apply novos_jogos_ids|]. simpl.
    intros j Hj Hin%next_id_gt. fold nid in Hin. lia.
  - eapply Forall2_Forall_l; [apply (novos_jogos_shape env t c _ nid)|].
    apply Forall_true. intros p j (? & ? & ? & ? & _). done.
  - eapply Forall2_Forall_l; [apply (novos_jogos_shape env t c _ nid)|].
    eapply Forall_impl; [apply (pair_up_distinct inscricao_id insc Hnd)|].
    intros [a b] (Ha & Hb & Hne) j (_ & _ & _ & _ & H1 & H2). simpl in *.
    exists a, b. rewrite <-Hperm. done.
  - rewrite equipes_novos_jogos, pair_up_flatten, list_fmap_compose.
    apply (NoDup_fmap_2 Some). eapply sublist_NoDup; [exact Hnd|].
    apply fmap_sublist, sublist_take.
  - exact Hleft.
  - intros [k Hk].
    pose proof (Nat.div_mod_eq N 2). pose proof (Nat.mod_upper_bound N 2).
    destruct (filter _ conf) as [|i [|i' l]] eqn:E; cbn [length] in Hleft;
      [lia|by exists i|lia].
Qed.


(** ** The bracket table under generation *)

Lemma overwrite_do_chaveamento cid e now t c r :
  do_chaveamento t c (overwrite cid e now r) ↔ do_chaveamento t c r.
Proof. unfold overwrite. by case_decide. Qed.

Lemma filter_overwrite cid e now t c (l : list Chaveamento) :
  filter (do_chaveamento t c) (overwrite cid e now <$> l)
  = overwrite cid e now <$> filter (do_chaveamento t c) l.
Proof.
  induction l as [|r l IH]; [done|].
  rewrite fmap_cons, !filter_cons.
  destruct (decide (do_chaveamento t c r)) as [Hr|Hr].
  - rewrite decide_True by (by apply overwrite_do_chaveamento).
    by rewrite fmap_cons, IH.
  - rewrite decide_False by (by rewrite overwrite_do_chaveamento). done.
Qed.

Lemma overwrite_ids cid e now (l : list Chaveamento) :
  chaveamento_id <$> (overwrite cid e now <$> l) = chaveamento_id <$> l.
Proof.
  rewrite <-list_fmap_compose. apply list_fmap_ext.
  intros i r _. simpl. unfold overwrite. by case_decide.
Qed.

Lemma first_chaveamento_do t c st ch :
  first_chaveamento t c st = Some ch → do_chaveamento t c ch ∧ ch ∈ chaveamentos st.
Proof.
  unfold first_chaveamento. intros Hh.
  apply (list_elem_of_filter (do_chaveamento t c)).
  destruct (filter _ _) as [|x l]; simplify_eq/=. left.
Qed.

Lemma chaveamentos_add_jogos js st : chaveamentos (add_jogos js st) = chaveamentos st.
Proof. done. Qed.

Lemma gerar_chaveamento_chaveamentos env now tape t c st :
  (2 ≤ length (filter (confirmada t c) (inscricoes st)))%nat →
  let e := estrutura_de (shuffle tape (filter (confirmada t c) (inscricoes st))) in
  chaveamentos (gerar_chaveamento env now tape t c st).2
  = match first_chaveamento t c st with
    | Some ch => overwrite (chaveamento_id ch) e now <$> chaveamentos st
    | None => chaveamentos st ++ [novo_chaveamento env now t c e st]
    end.
Proof.
  intros Hge e. rewrite gerar_chaveamento_ok by done. cbn zeta. cbn [snd].
  rewrite chaveamentos_add_jogos. unfold upsert. fold e.
  by destruct (first_chaveamento t c st).
Qed.

(** C3. When the pair already has a bracket row, a successful generation
    rewrites the bracket table in place: the row found for the pair keeps its
    id and pair, takes the new structure and the current time as timestamp,
    is the row the response carries and the row a later lookup for the pair
    finds; the ids in the table and the number of rows of every pair are what
    they were, so no second row appears. In every case (row present or not,
    success or failure) a table with at most one bracket per pair stays
    one. *)
Theorem gerar_chaveamento_upserts (env : Env) (now : Z) (tape : list nat)
    (t c : Z) (st : Store) :
  let out := gerar_chaveamento env now tape t c st in
  let e := estrutura_de (shuffle tape (filter (confirmada t c) (inscricoes st))) in
  (∀ ch, first_chaveamento t c st = Some ch → status out.1 = 201 →
     let ch' := set_estrutura e now ch in
     chaveamentos out.2
       = (λ r, if decide (chaveamento_id r = chaveamento_id ch)
               then set_estrutura e now r else r) <$> chaveamentos st
     ∧ body out.1 = BChaveamento ch'
     ∧ first_chaveamento t c out.2 = Some ch'
     ∧ chaveamento_id ch' = chaveamento_id ch
     ∧ estrutura_json ch' = e
     ∧ data_atualizacao ch' = Some now
     ∧ chaveamento_id <$> chaveamentos out.2 = chaveamento_id <$> chaveamentos st
     ∧ ∀ t' c', length (filter (do_chaveamento t' c') (chaveamentos out.2))
                = length (filter (do_chaveamento t' c') (chaveamentos st)))
  ∧ (um_por_categoria st → um_por_categoria out.2).
Proof.
  intros out e. subst out. split.
  - intros ch Hch Hok%gerar_chaveamento_status ch'.
    pose proof (gerar_chaveamento_chaveamentos env now tape t c st Hok) as Htab.
    cbn zeta in Htab. fold e in Htab. rewrite Hch in Htab.
    split_and!; try done.
    + rewrite gerar_chaveamento_ok by done. cbn zeta. cbn [fst body].
      unfold upsert. by rewrite Hch.
    + unfold first_chaveamento in *. rewrite Htab, filter_overwrite.
      destruct (filter _ (chaveamentos st)) as [|x l]; simplify_eq/=.
      unfold overwrite. by rewrite decide_True.
    + rewrite Htab. apply overwrite_ids.
    + intros t' c'. by rewrite Htab, filter_overwrite, length_fmap.
  - intros Hinv t' c'.
    destruct (decide (length (filter (confirmada t c) (inscricoes st)) < 2)%nat)
      as [Hlt|Hge].
    { rewrite gerar_chaveamento_few by done. apply Hinv. }
    rewrite gerar_chaveamento_chaveamentos by lia. cbn zeta.
    destruct (first_chaveamento t c st) as [ch|] eqn:Hch.
    + rewrite filter_overwrite, length_fmap. apply Hinv.
    + rewrite filter_app, length_app, filter_cons, filter_nil.
      unfold first_chaveamento in Hch.
      destruct (decide (do_chaveamento t' c' _)) as [[Ht Hc]|Hno]; simpl in *.
      * subst t' c'. destruct (filter _ (chaveamentos st)); simplify_eq/=. lia.
      * specialize (Hinv t' c'). lia.
Qed.

(** C4. Generation never deletes nor changes a match row: the match table
    afterwards is the old one followed by the new rows (none on failure).
    After a successful generation the new rows all belong to the pair, and
    the bracket-fetch endpoint answers 200 with the pair's earlier matches
    followed by the new ones, leaving the store alone. *)
Theorem gerar_chaveamento_keeps_jogos (env : Env) (now : Z) (tape : list nat)
    (t c : Z) (st : Store) :
  let out := gerar_chaveamento env now tape t c st in
  ∃ novos : list Jogo,
    jogos out.2 = jogos st ++ novos
    ∧ Forall (da_categoria t c) novos
    ∧ filter (da_categoria t c) (jogos out.2)
      = filter (da_categoria t c) (jogos st) ++ novos
    ∧ (status out.1 = 201 →
       length novos
         = (length (filter (confirmada t c) (inscricoes st)) / 2)%nat
       ∧ ∃ ch, get_chaveamento t c out.2
               = ({| status := 200;
                     body := BChaveamentoJogos ch
                               (filter (da_categoria t c) (jogos st) ++ novos) |},
                  out.2)).
Proof.
  intros out. subst out.
  destruct (decide (length (filter (confirmada t c) (inscricoes st)) < 2)%nat)
    as [Hlt|Hge].
  { exists []. rewrite gerar_chaveamento_few by done. cbn [fst snd status].
    rewrite !app_nil_r. by split_and!. }
  assert (2 ≤ length (filter (confirmada t c) (inscricoes st)))%nat as Hok by lia.
  pose proof (gerar_chaveamento_chaveamentos env now tape t c st Hok) as Htab.
  cbn zeta in Htab. revert Htab.
  rewrite gerar_chaveamento_ok by done. cbn zeta. cbn [fst snd status].
  set (insc := shuffle tape _). set (nid := next_id _).
  set (novos := novos_jogos env t c nid (pair_up insc)).
  set (st' := add_jogos novos _). intros Htab.
  assert (jogos st' = jogos st ++ novos) as Hj.
  { unfold st', add_jogos. cbn [jogos]. by rewrite upsert_jogos. }
  assert (Forall (da_categoria t c) novos) as Hall.
  { eapply Forall2_Forall_l; [apply (novos_jogos_shape env t c _ nid)|].
    apply Forall_true. intros p j (? & ? & _). by split. }
  assert (filter (da_categoria t c) (jogos st')
          = filter (da_categoria t c) (jogos st) ++ novos) as Hf.
  { rewrite Hj, filter_app. f_equal. apply filter_every.
    by apply Forall_forall. }
  exists novos. split_and!; [done..|]. intros _. split.
  { unfold novos, insc. by rewrite novos_jogos_length, pair_up_length, shuffle_length. }
  assert (∃ ch, first_chaveamento t c st' = Some ch) as [ch Hch].
  { unfold first_chaveamento. rewrite Htab.
    destruct (first_chaveamento t c st) as [ch0|] eqn:H0.
    - rewrite filter_overwrite. unfold first_chaveamento in H0.
      destruct (filter _ (chaveamentos st)) as [|x l]; simplify_eq/=. eauto.
    - rewrite filter_app, filter_cons, decide_True by done.
      unfold first_chaveamento in H0.
      destruct (filter _ (chaveamentos st)); simplify_eq/=. eauto. }
  exists ch. unfold get_chaveamento, handle_ro, get_chaveamento_body.
  unfold mbind, M_bind, query. cbn [view db]. rewrite Hch.
  cbn [view db]. by rewrite Hf.
Qed.

(** ** Result entry *)

Lemma get_jogo_id id st j : get_jogo id st = Some j → jogo_id j = id ∧ j ∈ jogos st.
Proof.
  unfold get_jogo. intros Hh.
  apply (list_elem_of_filter (λ j, jogo_id j = id)).
  destruct (filter _ _) as [|x l]; simplify_eq/=. left.
Qed.

Lemma write_jogo_write_jogo a b st :
  jogo_id a = jogo_id b → write_jogo b (write_jogo a st) = write_jogo b st.
Proof.
  intros Hid. unfold write_jogo. cbn [jogos atletas inscricoes chaveamentos].
  f_equal. rewrite <-list_fmap_compose. apply list_fmap_ext.
  intros i r _. simpl.
  destruct (decide (jogo_id r = jogo_id a)) as [Hr|Hr]; [|done].
  rewrite decide_True by done.
  destruct (decide (jogo_id r = jogo_id b)) as [|Hb]; [done|].
  destruct Hb. by rewrite Hr.
Qed.

Lemma get_jogo_write_jogo id st j j' :
  get_jogo id st = Some j → jogo_id j' = id →
  get_jogo id (write_jogo j' st) = Some j'.
Proof.
  unfold get_jogo, write_jogo. cbn [jogos]. intros Hj Hid.
  induction (jogos st) as [|r l IH]; [done|].
  rewrite fmap_cons, filter_cons. rewrite filter_cons in Hj.
  destruct (decide (jogo_id r = id)) as [Hr|Hr];
    destruct (decide (jogo_id r = jogo_id j')) as [Hr'|Hr']; try congruence.
  - by rewrite decide_True by done.
  - rewrite decide_False by done. by apply IH.
Qed.

Lemma write_jogo_others id st j' :
  jogo_id j' = id →
  filter (λ r, jogo_id r ≠ id) (jogos (write_jogo j' st))
  = filter (λ r, jogo_id r ≠ id) (jogos st).
Proof.
  intros Hid. unfold write_jogo. cbn [jogos].
  induction (jogos st) as [|r l IH]; [done|].
  rewrite fmap_cons, !filter_cons.
  rewrite IH. repeat case_decide; try done; exfalso; congruence.
Qed.

Lemma inserir_resultado_missing (env : Env) (p : payload) (id : Z) (st : Store) :
  get_jogo id st = None →
  inserir_resultado env p id st
  = ({| status := 500;
        body := BException (if p is NoJson then BadRequest else NotFound) |}, st).
Proof.
  intros Hno. unfold inserir_resultado, handle, inserir_resultado_body.
  destruct p; run_session; rewrite ?Hno; done.
Qed.

(** The run of a request that finds its match and both scores: what the
    columns make of the three values decides between the update and the
    refusal. *)
Lemma inserir_resultado_run (env : Env) (d : gmap string jval) (id : Z)
    (st : Store) (j : Jogo) (v1 v2 : jval) :
  get_jogo id st = Some j →
  d !! "placar_equipe1" = Some v1 →
  d !! "placar_equipe2" = Some v2 →
  inserir_resultado env (JsonObject d) id st
  = match coluna_placar env v1, coluna_placar env v2,
          coluna_observacoes env (default JNull (d !! "observacoes")) with
    | Some w1, Some w2, Some o =>
        ({| status := 200; body := BJogo (com_resultado w1 w2 o j) |},
         write_jogo (com_resultado w1 w2 o j) st)
    | _, _, _ => ({| status := 500; body := BException StorageError |}, st)
    end.
Proof.
  intros Hj H1 H2. unfold inserir_resultado, handle, inserir_resultado_body.
  run_session. rewrite Hj. run_session. rewrite H1. run_session.
  rewrite H2. run_session. unfold flush_jogo.
  cbn [set_observacoes set_status set_placar_equipe2 set_placar_equipe1
       placar_equipe1 placar_equipe2 observacoes].
  destruct (coluna_placar env v1) as [w1|]; [|done].
  destruct (coluna_placar env v2) as [w2|]; [|done].
  destruct (coluna_observacoes env _) as [o|]; [|done].
  run_session. rewrite !write_jogo_write_jogo by done. done.
Qed.

Lemma inserir_resultado_ok (env : Env) (d : gmap string jval) (id : Z)
    (st : Store) (j : Jogo) (v1 v2 w1 w2 o : jval) :
  get_jogo id st = Some j →
  d !! "placar_equipe1" = Some v1 →
  d !! "placar_equipe2" = Some v2 →
  coluna_placar env v1 = Some w1 →
  coluna_placar env v2 = Some w2 →
  coluna_observacoes env (default JNull (d !! "observacoes")) = Some o →
  let j' := com_resultado w1 w2 o j in
  inserir_resultado env (JsonObject d) id st
  = ({| status := 200; body := BJogo j' |}, write_jogo j' st).
Proof.
  intros Hj H1 H2 Hw1 Hw2 Ho j'.
  by rewrite (inserir_resultado_run env d id st j v1 v2), Hw1, Hw2, Ho.
Qed.

Lemma inserir_resultado_refused (env : Env) (d : gmap string jval) (id : Z)
    (st : Store) (j : Jogo) (v1 v2 : jval) :
  get_jogo id st = Some j →
  d !! "placar_equipe1" = Some v1 →
  d !! "placar_equipe2" = Some v2 →
  coluna_placar env v1 = None ∨ coluna_placar env v2 = None
  ∨ coluna_observacoes env (default JNull (d !! "observacoes")) = None →
  inserir_resultado env (JsonObject d) id st
  = ({| status := 500; body := BException StorageError |}, st).
Proof.
  intros Hj H1 H2 Hno.
  rewrite (inserir_resultado_run env d id st j v1 v2) by done.
  destruct Hno as [-> |[-> | ->]]; [done| |].
  - by destruct (coluna_placar env v1).
  - by destruct (coluna_placar env v1), (coluna_placar env v2).
Qed.

(** C5, as the code has it. The lookup of a missing match raises
    [NotFound] inside the handler's [try]; its [except Exception] clause
    catches it, so a result submitted to the missing id 7 is answered with
    500, not 404. The store is left as it was. *)
Theorem inserir_resultado_missing_is_500 :
  get_jogo 7 store_exemplo = None
  ∧ inserir_resultado env_exemplo (JsonObject placar_exemplo) 7 store_exemplo
    = ({| status := 500; body := BException NotFound |}, store_exemplo).
Proof. split; [done|]. by apply (inserir_resultado_missing _ (JsonObject _)). Qed.

(** C6, for the scores that the storage layer accepts. For a match found
    under the id and a JSON object carrying both scores, when the score
    column accepts the two scores and the notes column the notes (null when
    absent), the answer is 200 with the match as written: same id, its two
    scores are what the score column holds for the submitted values (the
    submitted values themselves when the column holds them as they are, as
    it does integers that fit it), its status is "finalizado", whatever
    they were before, and the other columns keep their values. The row is
    the one the store now holds under the id, rows with other ids are
    untouched, and submitting the same body again gives the same answer and
    the same store. *)
Theorem inserir_resultado_sets (env : Env) (d : gmap string jval) (id : Z)
    (st : Store) (j : Jogo) (v1 v2 w1 w2 o : jval) :
  let out := inserir_resultado env (JsonObject d) id st in
  get_jogo id st = Some j →
  d !! "placar_equipe1" = Some v1 →
  d !! "placar_equipe2" = Some v2 →
  coluna_placar env v1 = Some w1 →
  coluna_placar env v2 = Some w2 →
  coluna_observacoes env (default JNull (d !! "observacoes")) = Some o →
  ∃ j' : Jogo,
    out.1 = {| status := 200; body := BJogo j' |}
    ∧ get_jogo id out.2 = Some j'
    ∧ jogo_id j' = id
    ∧ placar_equipe1 j' = w1
    ∧ placar_equipe2 j' = w2
    ∧ j_status j' = Some "finalizado"
    ∧ observacoes j' = o
    ∧ (j_torneio_id j', j_categoria_id j', fase j', rodada j',
       equipe1_id j', equipe2_id j', data_hora j')
      = (j_torneio_id j, j_categoria_id j, fase j, rodada j,
         equipe1_id j, equipe2_id j, data_hora j)
    ∧ length (jogos out.2) = length (jogos st)
    ∧ filter (λ r, jogo_id r ≠ id) (jogos out.2)
      = filter (λ r, jogo_id r ≠ id) (jogos st)
    ∧ (atletas out.2, inscricoes out.2, chaveamentos out.2)
      = (atletas st, inscricoes st, chaveamentos st)
    ∧ inserir_resultado env (JsonObject d) id out.2 = out.
Proof.
  intros out Hj H1 H2 Hw1 Hw2 Ho. subst out.
  rewrite (inserir_resultado_ok env d id st j v1 v2 w1 w2 o) by done.
  cbn zeta. cbn [fst snd].
  set (j' := com_resultado w1 w2 o j).
  destruct (get_jogo_id _ _ _ Hj) as [Hid _].
  assert (jogo_id j' = id) as Hid' by done.
  assert (get_jogo id (write_jogo j' st) = Some j') as Hj'
    by (by apply (get_jogo_write_jogo id st j)).
  exists j'. split_and!; try done.
  - unfold write_jogo. cbn [jogos]. by rewrite length_fmap.
  - by apply write_jogo_others.
  - rewrite (inserir_resultado_ok env d id _ j' v1 v2 w1 w2 o) by done. cbn zeta.
    rewrite write_jogo_write_jogo by done.
    by destruct j.
Qed.

(** ** Duplicate checks *)

Lemma head_filter_elem {A} (P : A → Prop) `{∀ x, Decision (P x)} (l : list A) (x : A) :
  x ∈ l → P x → is_Some (head (filter P l)).
Proof.
  intros Hin HP. assert (x ∈ filter P l) as Hf by (by apply list_elem_of_filter).
  destruct (filter P l); [by apply elem_of_nil in Hf|by eexists].
Qed.

(** C7. An athlete-creation request whose email is the email of a stored
    athlete (active or not) answers 400 with the conflict message, and the
    store, so the athlete table, is the one it started from. *)
Theorem create_atleta_duplicate_email (env : Env) (d : gmap string jval)
    (e : jval) (a : Atleta) (st : Store) :
  let out := create_atleta env (JsonObject d) st in
  d !! "email" = Some e →
  a ∈ atletas st →
  email a = e →
  out.1 = {| status := 400; body := BError "Email já cadastrado" |}
  ∧ out.2 = st
  ∧ atletas out.2 = atletas st.
Proof.
  intros out He Hin Ha. subst out.
  unfold create_atleta, handle, create_atleta_body. run_session.
  rewrite He. run_session.
  destruct (head_filter_elem (λ a, email a = e) (atletas st) a Hin Ha) as [x Hx].
  unfold atleta_com_email. rewrite Hx. done.
Qed.

(** C8. A registration request whose (tournament, category, athlete) triple
    is the triple of a stored registration answers 400 with the conflict
    message, and the store is the one it started from: no registration is
    added and the existing one is as it was. *)
Theorem criar_inscricao_duplicate (env : Env) (d : gmap string jval)
    (i : Inscricao) (st : Store) :
  let out := criar_inscricao env (JsonObject d) st in
  i ∈ inscricoes st →
  d !! "torneio_id" = Some (i_torneio_id i) →
  d !! "categoria_id" = Some (i_categoria_id i) →
  d !! "atleta_id" = Some (i_atleta_id i) →
  out.1 = {| status := 400; body := BError "Atleta já inscrito nesta categoria" |}
  ∧ out.2 = st
  ∧ inscricoes out.2 = inscricoes st
  ∧ i ∈ inscricoes out.2.
Proof.
  intros out Hin Ht Hc Ha. subst out.
  unfold criar_inscricao, handle, criar_inscricao_body. run_session.
  rewrite Ht. run_session. rewrite Hc. run_session. rewrite Ha. run_session.
  destruct (head_filter_elem
              (λ r, i_torneio_id r = i_torneio_id i
                    ∧ i_categoria_id r = i_categoria_id i
                    ∧ i_atleta_id r = i_atleta_id i)
              (inscricoes st) i Hin) as [x Hx]; [done|].
  unfold inscricao_existente. rewrite Hx. done.
Qed.

(** ** Listings *)

Lemma StronglySorted_lookup_lt {A} (R : relation A) (l : list A) :
  StronglySorted R l →
  ∀ (i j : nat) (a b : A),
    (i < j)%nat → l !! i = Some a → l !! j = Some b → R a b.
Proof.
  induction 1 as [|x l Hl IH Hx]; intros i j a b Hij Ha Hb.
  - by rewrite lookup_nil in Ha.
  - destruct j as [|j]; [lia|]. simpl in Hb.
    destruct i as [|i]; simpl in Ha.
    + simplify_eq. eapply Forall_forall; [exact Hx|].
      by eapply list_elem_of_lookup_2.
    + eapply (IH i j); [lia|done..].
Qed.

Lemma insere_Permutation {A} (R : relation A) `{∀ x y, Decision (R x y)}
    (x : A) (l : list A) :
  insere R x l ≡ₚ x :: l.
Proof.
  induction l as [|y l IH]; [done|]. cbn [insere].
  case_decide; [done|]. rewrite IH. apply Permutation_swap.
Qed.

Lemma ordena_Permutation {A} (R : relation A) `{∀ x y, Decision (R x y)}
    (l : list A) :
  ordena R l ≡ₚ l.
Proof.
  induction l as [|x l IH]; [done|].
  unfold ordena in *. cbn [foldr]. by rewrite insere_Permutation, IH.
Qed.

Lemma StronglySorted_insere {A} (R : relation A) `{∀ x y, Decision (R x y)}
    {HR : Transitive R} {HT : Total R} (x : A) (l : list A) :
  StronglySorted R l → StronglySorted R (insere R x l).
Proof.
  induction 1 as [|y l Hl IH Hy]; cbn [insere].
  - repeat constructor.
  - case_decide as Hxy.
    + constructor; [by constructor|]. constructor; [done|].
      eapply Forall_impl; [exact Hy|]. intros z Hz. by etrans.
    + constructor; [done|]. rewrite insere_Permutation. constructor; [|done].
      by destruct (HT x y).
Qed.

Lemma StronglySorted_ordena {A} (R : relation A) `{∀ x y, Decision (R x y)}
    `{!Transitive R, !Total R} (l : list A) :
  StronglySorted R (ordena R l).
Proof.
  induction l as [|x l IH]; [constructor|].
  unfold ordena in *. cbn [foldr]. by apply StronglySorted_insere.
Qed.

(** The sort is stable: what it does to the rows passing a test is the sort
    of those rows, and rows that the order does not tell apart come in the
    order they had. *)
Lemma ordena_tied {A} (R : relation A) `{∀ x y, Decision (R x y)} (l : list A) :
  (∀ x y, x ∈ l → y ∈ l → R x y) → ordena R l = l.
Proof.
  induction l as [|x l IH]; intros Htie; [done|].
  unfold ordena in *. cbn [foldr]. rewrite IH by (intros; apply Htie; set_solver).
  destruct l as [|y l]; [done|]. cbn [insere].
  rewrite decide_True; [done|]. apply Htie; set_solver.
Qed.

Lemma order_by_ranking_sorted (rows : list Atleta) :
  StronglySorted ranking_le (order_by_ranking rows).
Proof. apply StronglySorted_ordena; apply _. Qed.

(** Athletes with the same position, or all without one, are served in
    table order. *)
Lemma order_by_ranking_tied (rows : list Atleta) (pos : option Z) :
  Forall (λ a, ranking_posicao a = pos) rows → order_by_ranking rows = rows.
Proof.
  intros Hall. apply ordena_tied. intros x y Hx Hy.
  rewrite Forall_forall in Hall. unfold ranking_le.
  rewrite (Hall x Hx), (Hall y Hy). destruct pos; simpl; [lia|done].
Qed.

Lemma fits_int64_limit (n : Z) : 0 ≤ n → fits_int64 n ↔ n < 2 ^ 63.
Proof. unfold fits_int64. lia. Qed.

Lemma sorted_take_ordem (l : list Atleta) (n : nat) :
  StronglySorted ranking_le l →
  posicoes_ascendentes (take n l) ∧ sem_posicao_no_fim (take n l).
Proof.
  intros Hs. split.
  - intros i j a b x y Hij [Ha _]%lookup_take_Some [Hb _]%lookup_take_Some Hx Hy.
    pose proof (StronglySorted_lookup_lt _ _ Hs i j a b Hij Ha Hb) as Hle.
    unfold ranking_le in Hle. by rewrite Hx, Hy in Hle.
  - intros i j a b Hij [Ha _]%lookup_take_Some [Hb _]%lookup_take_Some Hx.
    pose proof (StronglySorted_lookup_lt _ _ Hs i j a b Hij Ha Hb) as Hle.
    unfold ranking_le in Hle. rewrite Hx in Hle.
    by destruct (ranking_posicao b).
Qed.

Lemma sorted_ordem (l : list Atleta) :
  StronglySorted ranking_le l → posicoes_ascendentes l ∧ sem_posicao_no_fim l.
Proof.
  intros Hs. rewrite <-(take_ge l (length l)) by done. by apply sorted_take_ordem.
Qed.

Lemma get_ranking_run (env : Env) (cat : option string) (limit : int_arg) (st : Store) :
  get_ranking env cat limit st =
    let rows := order_by_ranking (filter_by_categoria cat (atletas_ativos st)) in
    let nm := default "Geral" (given cat) in
    (match limit_pedido limit with
     | None => {| status := 500; body := BException ValueError |}
     | Some n =>
         if decide (fits_int64 n) then
           if decide (0 ≤ n) then
             {| status := 200; body := BRanking (take (Z.to_nat n) rows) nm |}
           else
             match negative_limit env with
             | NegativeIsUnbounded => {| status := 200; body := BRanking rows nm |}
             | NegativeIsError => {| status := 500; body := BException StorageError |}
             end
         else {| status := 500; body := BException StorageError |}
     end, st).
Proof.
  unfold get_ranking, handle_ro, get_ranking_body.
  destruct limit as [|n|]; cbn [limit_pedido]; run_session; try done;
    unfold sql_limit; repeat case_decide; run_session; try done;
    by destruct (negative_limit env).
Qed.

(** C9, with the length bound where it holds. A ranking request never
    changes the store. Whenever it answers with a list, positions ascend
    along the list and athletes without a position come after all athletes
    with one. When the requested limit (50 if the parameter is absent) is not
    negative and below 2^63, the answer is 200 with such a list, labelled
    with the category or "Geral", of length at most the limit. From 2^63 on
    the driver refuses the limit: the answer is 500 and carries no list. *)
Theorem get_ranking_ordered (env : Env) (cat : option string) (limit : int_arg)
    (st : Store) :
  let out := get_ranking env cat limit st in
  out.2 = st
  ∧ (∀ l nm, body out.1 = BRanking l nm →
       posicoes_ascendentes l ∧ sem_posicao_no_fim l)
  ∧ (∀ n, limit_pedido limit = Some n → 0 ≤ n → n < 2 ^ 63 →
       ∃ l, out.1 = {| status := 200;
                       body := BRanking l (default "Geral" (given cat)) |}
            ∧ posicoes_ascendentes l ∧ sem_posicao_no_fim l
            ∧ Z.of_nat (length l) ≤ n)
  ∧ (∀ n, limit_pedido limit = Some n → 2 ^ 63 ≤ n →
       out.1 = {| status := 500; body := BException StorageError |}).
Proof.
  intros out. subst out. rewrite get_ranking_run. cbn zeta. cbn [fst snd].
  set (rows := order_by_ranking _).
  assert (StronglySorted ranking_le rows) as Hs by apply order_by_ranking_sorted.
  split_and!; [done| | |].
  - intros l nm.
    destruct (limit_pedido limit) as [n|]; [|done].
    case_decide; [|done].
    case_decide; [|destruct (negative_limit env)]; cbn [body]; intros [= <- <-];
      [by apply sorted_take_ordem|by apply sorted_ordem].
  - intros n -> Hn Hlt.
    rewrite decide_True by (by apply fits_int64_limit).
    rewrite decide_True by done.
    eexists. split; [done|].
    destruct (sorted_take_ordem rows (Z.to_nat n) Hs) as [? ?].
    split_and!; [done..|]. rewrite length_take. lia.
  - intros n -> Hn. rewrite decide_False; [done|]. unfold fits_int64. lia.
Qed.

(** C10. Every athlete in the list of an athlete-listing answer and in the
    list of a ranking answer is a stored athlete whose active flag is true,
    whatever the category, country, page, page size and limit parameters. *)
Theorem listings_only_active (env : Env) (cat country : option string)
    (page per_page limit : int_arg) (st : Store) :
  (∀ l tot pgs cur,
     body (get_atletas cat country page per_page st).1 = BAtletas l tot pgs cur →
     Forall (λ a, a ∈ atletas st ∧ ativo a = Some true) l)
  ∧ (∀ l nm,
     body (get_ranking env cat limit st).1 = BRanking l nm →
     Forall (λ a, a ∈ atletas st ∧ ativo a = Some true) l).
Proof.
  assert (∀ c rows a, a ∈ order_by_ranking (filter_by_categoria c rows) → a ∈ rows)
    as Hcat.
  { intros c rows a. unfold order_by_ranking. rewrite ordena_Permutation.
    unfold filter_by_categoria. destruct (given c); [|done].
    by intros [_ ?]%list_elem_of_filter. }
  assert (∀ a, a ∈ atletas_ativos st → a ∈ atletas st ∧ ativo a = Some true) as Hat.
  { intros a [? ?]%list_elem_of_filter. done. }
  split.
  - intros l tot pgs cur. unfold get_atletas, handle_ro, get_atletas_body.
    destruct page as [|pg|]; run_session; [| |done];
      (destruct per_page as [|pp|]; run_session; [| |done]);
      unfold paginate_query; (case_decide; run_session; [|done]);
      cbn [body]; intros [= <- _ _ _]; apply Forall_forall; intros a Ha;
      apply Hat; unfold paginate in Ha; cbn [items] in Ha;
      apply subseteq_take, subseteq_drop in Ha;
      unfold order_by_ranking in Ha; rewrite ordena_Permutation in Ha;
      (assert (a ∈ filter_by_categoria cat (atletas_ativos st)) as Hc
         by (revert Ha; unfold filter_by_pais; destruct (given country); [|done];
             by intros [_ ?]%list_elem_of_filter));
      apply (Hcat cat); unfold order_by_ranking; by rewrite ordena_Permutation.
  - intros l nm. rewrite get_ranking_run. cbn zeta. cbn [fst].
    destruct (limit_pedido limit) as [n|]; [|done].
    case_decide; [|done].
    case_decide; [|destruct (negative_limit env)]; cbn [body]; intros [= <- _];
      apply Forall_forall; intros a Ha; apply Hat, (Hcat cat);
      [by apply subseteq_take in Ha|done].
Qed.

(** ** The theorems at work on the small database *)

Lemma gerar_chaveamento_first_round_witness :
  NoDup (inscricao_id <$> inscricoes store_exemplo)
  ∧ (2 ≤ length (filter (confirmada 1 1) (inscricoes store_exemplo)))%nat
  ∧ status (gerar_chaveamento env_exemplo 200 [3; 1; 4; 1]%nat 1 1 store_exemplo).1
    = 201
  ∧ ∃ novos : list Jogo,
      jogos (gerar_chaveamento env_exemplo 200 [3; 1; 4; 1]%nat 1 1 store_exemplo).2
      = jogos store_exemplo ++ novos
      ∧ length novos = 2%nat
      ∧ length (filter (sem_jogo novos)
                  (filter (confirmada 1 1) (inscricoes store_exemplo))) = 1%nat.
Proof.
  assert (NoDup (inscricao_id <$> inscricoes store_exemplo)) as Hpk
    by (apply (bool_decide_unpack _); vm_compute; reflexivity).
  assert (2 ≤ length (filter (confirmada 1 1) (inscricoes store_exemplo)))%nat
    as HN by (vm_compute; lia).
  destruct (gerar_chaveamento_first_round env_exemplo 200 [3; 1; 4; 1]%nat 1 1
              store_exemplo Hpk HN)
    as (Hst & novos & Hj & Hlen & _ & _ & _ & _ & Hleft & _).
  split_and!; [exact Hpk|exact HN|exact Hst|].
  exists novos. split_and!; [exact Hj|exact Hlen|exact Hleft].
Defined.


Lemma gerar_chaveamento_upserts_witness :
  first_chaveamento 1 1 store_exemplo = Some chaveamento_exemplo
  ∧ status (gerar_chaveamento env_exemplo 200 [3; 1; 4; 1]%nat 1 1 store_exemplo).1
    = 201
  ∧ chaveamento_id <$>
      chaveamentos
        (gerar_chaveamento env_exemplo 200 [3; 1; 4; 1]%nat 1 1 store_exemplo).2
    = [1]
  ∧ um_por_categoria
      (gerar_chaveamento env_exemplo 200 [3; 1; 4; 1]%nat 1 1 store_exemplo).2.
Proof.
  assert (first_chaveamento 1 1 store_exemplo = Some chaveamento_exemplo) as Hch
    by reflexivity.
  assert (status
            (gerar_chaveamento env_exemplo 200 [3; 1; 4; 1]%nat 1 1 store_exemplo).1
          = 201) as Hok by reflexivity.
  assert (um_por_categoria store_exemplo) as Hinv.
  { intros t c. unfold store_exemplo. cbn [chaveamentos].
    rewrite filter_cons, filter_nil. case_decide; simpl; lia. }
  destruct (gerar_chaveamento_upserts env_exemplo 200 [3; 1; 4; 1]%nat 1 1
              store_exemplo) as [Hrow Hkeep].
  destruct (Hrow chaveamento_exemplo Hch Hok) as (_ & _ & _ & _ & _ & _ & Hids & _).
  split_and!; [exact Hch|exact Hok|exact Hids|exact (Hkeep Hinv)].
Defined.

Lemma gerar_chaveamento_keeps_jogos_witness :
  status (gerar_chaveamento env_exemplo 200 [3; 1; 4; 1]%nat 1 1 store_exemplo).1
    = 201
  ∧ ∃ novos : list Jogo,
      jogos (gerar_chaveamento env_exemplo 200 [3; 1; 4; 1]%nat 1 1 store_exemplo).2
      = jogo_exemplo :: novos
      ∧ length novos = 2%nat
      ∧ ∃ ch,
          (get_chaveamento 1 1
             (gerar_chaveamento env_exemplo 200 [3; 1; 4; 1]%nat 1 1
                store_exemplo).2).1
          = {| status := 200; body := BChaveamentoJogos ch (jogo_exemplo :: novos) |}.
Proof.
  assert (status
            (gerar_chaveamento env_exemplo 200 [3; 1; 4; 1]%nat 1 1 store_exemplo).1
          = 201) as Hok by reflexivity.
  destruct (gerar_chaveamento_keeps_jogos env_exemplo 200 [3; 1; 4; 1]%nat 1 1
              store_exemplo) as (novos & Hj & _ & _ & Hget).
  destruct (Hget Hok) as (Hlen & ch & Hfetch).
  split; [exact Hok|]. exists novos. split_and!; [exact Hj|exact Hlen|].
  exists ch. rewrite Hfetch. reflexivity.
Defined.

Lemma inserir_resultado_sets_witness :
  get_jogo 1 store_exemplo = Some jogo_exemplo
  ∧ coluna_placar env_exemplo (JNum 2) = Some (JNum 2)
  ∧ coluna_placar env_exemplo (JNum 1) = Some (JNum 1)
  ∧ ∃ j' : Jogo,
      (inserir_resultado env_exemplo (JsonObject placar_exemplo) 1 store_exemplo).1
      = {| status := 200; body := BJogo j' |}
      ∧ placar_equipe1 j' = JNum 2
      ∧ placar_equipe2 j' = JNum 1
      ∧ j_status j' = Some "finalizado"
      ∧ inserir_resultado env_exemplo (JsonObject placar_exemplo) 1
          (inserir_resultado env_exemplo (JsonObject placar_exemplo) 1
             store_exemplo).2
        = inserir_resultado env_exemplo (JsonObject placar_exemplo) 1 store_exemplo.
Proof.
  assert (get_jogo 1 store_exemplo = Some jogo_exemplo) as Hj by reflexivity.
  assert (placar_exemplo !! "placar_equipe1" = Some (JNum 2)) as H1
    by (vm_compute; reflexivity).
  assert (placar_exemplo !! "placar_equipe2" = Some (JNum 1)) as H2
    by (vm_compute; reflexivity).
  assert (coluna_placar env_exemplo (JNum 2) = Some (JNum 2)) as Hw1
    by (vm_compute; reflexivity).
  assert (coluna_placar env_exemplo (JNum 1) = Some (JNum 1)) as Hw2
    by (vm_compute; reflexivity).
  assert (coluna_observacoes env_exemplo
            (default JNull (placar_exemplo !! "observacoes")) = Some JNull) as Ho
    by (vm_compute; reflexivity).
  destruct (inserir_resultado_sets env_exemplo placar_exemplo 1 store_exemplo
              jogo_exemplo (JNum 2) (JNum 1) (JNum 2) (JNum 1) JNull
              Hj H1 H2 Hw1 Hw2 Ho)
    as (j' & Hout & _ & _ & Hp1 & Hp2 & Hs & _ & _ & _ & _ & _ & Hagain).
  split_and!; [exact Hj|exact Hw1|exact Hw2|]. exists j'.
  split_and!; [exact Hout|exact Hp1|exact Hp2|exact Hs|exact Hagain].
Defined.

(** The example columns on the values of other types: the text "2" and the
    boolean true are held by the score column as 2 and 1, the number 7 by
    the notes column as the text "7". *)
Lemma colunas_exemplo :
  coluna_placar env_exemplo (JStr "2") = Some (JNum 2)
  ∧ coluna_placar env_exemplo (JBool true) = Some (JNum 1)
  ∧ coluna_placar env_exemplo (JNum (2 ^ 63 - 1)) = Some (JNum (2 ^ 63 - 1))
  ∧ coluna_placar env_exemplo (JNum (2 ^ 63)) = None
  ∧ coluna_observacoes env_exemplo (JNum 7) = Some (JStr "7").
Proof. split_and!; by vm_compute. Qed.

(** C6 as stated fails for a score that the column cannot hold: submitted
    to the stored match 1 with the first score 2^63, the request is answered
    500 and nothing is stored; the match keeps its score 0 and its status. *)
Lemma inserir_resultado_refuses_score :
  get_jogo 1 store_exemplo = Some jogo_exemplo
  ∧ placar_grande !! "placar_equipe1" = Some (JNum (2 ^ 63))
  ∧ placar_grande !! "placar_equipe2" = Some (JNum 1)
  ∧ inserir_resultado env_exemplo (JsonObject placar_grande) 1 store_exemplo
    = ({| status := 500; body := BException StorageError |}, store_exemplo)
  ∧ placar_equipe1 jogo_exemplo ≠ JNum (2 ^ 63)
  ∧ j_status jogo_exemplo ≠ Some "finalizado".
Proof. split_and!; [reflexivity|by vm_compute..|done|done]. Qed.

Lemma create_atleta_duplicate_email_witness :
  atleta_repetido !! "email" = Some (JStr "d@x")
  ∧ atleta_exemplo 4 "d@x" (Some 0) false ∈ atletas store_exemplo
  ∧ (create_atleta env_exemplo (JsonObject atleta_repetido) store_exemplo).1
    = {| status := 400; body := BError "Email já cadastrado" |}
  ∧ (create_atleta env_exemplo (JsonObject atleta_repetido) store_exemplo).2
    = store_exemplo.
Proof.
  assert (atleta_repetido !! "email" = Some (JStr "d@x")) as He
    by (vm_compute; reflexivity).
  assert (atleta_exemplo 4 "d@x" (Some 0) false ∈ atletas store_exemplo) as Hin
    by (apply (bool_decide_unpack _); vm_compute; reflexivity).
  destruct (create_atleta_duplicate_email env_exemplo atleta_repetido (JStr "d@x")
              (atleta_exemplo 4 "d@x" (Some 0) false) store_exemplo He Hin eq_refl)
    as (H1 & H2 & _).
  split_and!; [exact He|exact Hin|exact H1|exact H2].
Defined.

Lemma criar_inscricao_duplicate_witness :
  inscricao_exemplo 1 1 "confirmada" ∈ inscricoes store_exemplo
  ∧ (criar_inscricao env_exemplo (JsonObject inscricao_repetida) store_exemplo).1
    = {| status := 400; body := BError "Atleta já inscrito nesta categoria" |}
  ∧ (criar_inscricao env_exemplo (JsonObject inscricao_repetida) store_exemplo).2
    = store_exemplo.
Proof.
  assert (inscricao_exemplo 1 1 "confirmada" ∈ inscricoes store_exemplo) as Hin
    by (apply (bool_decide_unpack _); vm_compute; reflexivity).
  assert (inscricao_repetida !! "torneio_id" = Some (JNum 1)) as Ht
    by (vm_compute; reflexivity).
  assert (inscricao_repetida !! "categoria_id" = Some (JNum 1)) as Hc
    by (vm_compute; reflexivity).
  assert (inscricao_repetida !! "atleta_id" = Some (JNum 11)) as Ha
    by (vm_compute; reflexivity).
  destruct (criar_inscricao_duplicate env_exemplo inscricao_repetida
              (inscricao_exemplo 1 1 "confirmada") store_exemplo Hin Ht Hc Ha)
    as (H1 & H2 & _).
  split_and!; [exact Hin|exact H1|exact H2].
Defined.

(** C9 as stated fails on a backend where a negative LIMIT means no limit:
    asked for at most -1 athletes, the ranking answers 200 with the three
    active athletes. *)
Lemma get_ranking_negative_limit :
  limit_pedido (ArgInt (-1)) = Some (-1)
  ∧ (get_ranking env_exemplo None (ArgInt (-1)) store_exemplo).1
    = {| status := 200;
         body := BRanking [atleta_exemplo 3 "c@x" (Some 1) true;
                           atleta_exemplo 1 "a@x" (Some 2) true;
                           atleta_exemplo 2 "b@x" None true] "Geral" |}
  ∧ ¬ (Z.of_nat (length [atleta_exemplo 3 "c@x" (Some 1) true;
                         atleta_exemplo 1 "a@x" (Some 2) true;
                         atleta_exemplo 2 "b@x" None true]) ≤ -1).
Proof. split_and!; [reflexivity|by vm_compute|simpl; lia]. Qed.

Lemma get_ranking_ordered_witness :
  limit_pedido (ArgInt 2) = Some 2
  ∧ ∃ l,
      (get_ranking env_exemplo (Some "open") (ArgInt 2) store_exemplo).1
      = {| status := 200; body := BRanking l "open" |}
      ∧ posicoes_ascendentes l ∧ sem_posicao_no_fim l
      ∧ Z.of_nat (length l) ≤ 2.
Proof.
  assert (limit_pedido (ArgInt 2) = Some 2) as Hl by reflexivity.
  assert (0 ≤ 2) as Hpos by lia.
  assert (2 < 2 ^ 63) as Hfits by lia.
  destruct (get_ranking_ordered env_exemplo (Some "open") (ArgInt 2) store_exemplo)
    as (_ & _ & Hlim & _).
  destruct (Hlim 2 Hl Hpos Hfits) as (l & Hout & Hasc & Hnull & Hlen).
  split; [exact Hl|]. exists l.
  split_and!; [exact Hout|exact Hasc|exact Hnull|exact Hlen].
Defined.

Lemma listings_only_active_witness :
  Forall (λ a, a ∈ atletas store_exemplo ∧ ativo a = Some true)
    [atleta_exemplo 3 "c@x" (Some 1) true; atleta_exemplo 1 "a@x" (Some 2) true]
  ∧ Forall (λ a, a ∈ atletas store_exemplo ∧ ativo a = Some true)
      [atleta_exemplo 3 "c@x" (Some 1) true;
       atleta_exemplo 1 "a@x" (Some 2) true;
       atleta_exemplo 2 "b@x" None true].
Proof.
  destruct (listings_only_active env_exemplo None (Some "BR") (ArgInt 1) (ArgInt 2)
              (ArgInt (-1)) store_exemplo) as [Hlist Hrank].
  split.
  - apply (Hlist _ 3 2 1). vm_compute. reflexivity.
  - apply (Hrank _ "Geral"). vm_compute. reflexivity.
Defined.

(** ** Primary keys stay unique *)

Lemma NoDup_snoc_next_id (ids : list Z) : NoDup ids → NoDup (ids ++ [next_id ids]).
Proof.
  intros Hnd. apply NoDup_app. split_and!; [done| |apply NoDup_singleton].
  intros x Hx ->%list_elem_of_singleton. by apply (next_id_fresh ids).
Qed.

Lemma novos_jogos_ids_seq env t c ps :
  ∀ id, jogo_id <$> novos_jogos env t c id ps = (λ k, id + Z.of_nat k) <$> seq 0 (length ps).
Proof.
  induction ps as [|[a b] ps IH]; intros id; [done|].
  cbn [novos_jogos length seq fmap list_fmap]. f_equal; [simpl; lia|].
  rewrite IH, <-fmap_S_seq, <-list_fmap_compose.
  apply list_fmap_ext. intros i k _. simpl. lia.
Qed.

Lemma novos_jogos_NoDup env t c ps (ids : list Z) :
  NoDup ids → NoDup (ids ++ (jogo_id <$> novos_jogos env t c (next_id ids) ps)).
Proof.
  intros Hnd. apply NoDup_app. split_and!; [done| |].
  - intros x Hx%next_id_gt Hin.
    pose proof (novos_jogos_ids env t c ps (next_id ids)) as Hall.
    apply list_elem_of_fmap in Hin as (j & -> & Hj).
    rewrite Forall_forall in Hall. specialize (Hall j Hj). simpl in Hall. lia.
  - rewrite novos_jogos_ids_seq. apply NoDup_fmap_2; [|apply NoDup_seq].
    intros x y. lia.
Qed.

Lemma write_jogo_ids j st : jogo_id <$> jogos (write_jogo j st) = jogo_id <$> jogos st.
Proof.
  unfold write_jogo. cbn [jogos]. rewrite <-list_fmap_compose.
  apply list_fmap_ext. intros i r _. simpl. by case_decide.
Qed.

Lemma inserir_resultado_cases (env : Env) (p : payload) (id : Z) (st : Store)
    (j : Jogo) :
  get_jogo id st = Some j →
  (status (inserir_resultado env p id st).1 ≠ 200
   ∧ (inserir_resultado env p id st).2 = st)
  ∨ ∃ d v1 v2 w1 w2 o,
      p = JsonObject d
      ∧ d !! "placar_equipe1" = Some v1 ∧ d !! "placar_equipe2" = Some v2
      ∧ coluna_placar env v1 = Some w1 ∧ coluna_placar env v2 = Some w2
      ∧ coluna_observacoes env (default JNull (d !! "observacoes")) = Some o.
Proof.
  intros Hj. destruct p as [| |d].
  - by left.
  - left. unfold inserir_resultado, handle, inserir_resultado_body.
    run_session. rewrite Hj. by run_session.
  - destruct (d !! "placar_equipe1") as [v1|] eqn:H1.
    2:{ left. unfold inserir_resultado, handle, inserir_resultado_body.
        run_session. rewrite Hj. run_session. rewrite H1. by run_session. }
    destruct (d !! "placar_equipe2") as [v2|] eqn:H2.
    2:{ left. unfold inserir_resultado, handle, inserir_resultado_body.
        run_session. rewrite Hj. run_session. rewrite H1. run_session.
        rewrite H2. by run_session. }
    destruct (coluna_placar env v1) as [w1|] eqn:Hw1.
    2:{ left. rewrite (inserir_resultado_refused env d id st j v1 v2); auto. }
    destruct (coluna_placar env v2) as [w2|] eqn:Hw2.
    2:{ left. rewrite (inserir_resultado_refused env d id st j v1 v2); auto. }
    destruct (coluna_observacoes env (default JNull (d !! "observacoes")))
      as [o|] eqn:Ho.
    2:{ left. rewrite (inserir_resultado_refused env d id st j v1 v2); auto. }
    right. by eauto 12.
Qed.

Lemma inserir_resultado_store (env : Env) (p : payload) (id : Z) (st : Store) :
  (inserir_resultado env p id st).2 = st
  ∨ ∃ j', (inserir_resultado env p id st).2 = write_jogo j' st.
Proof.
  destruct (get_jogo id st) as [j|] eqn:Hj.
  2:{ left. by rewrite inserir_resultado_missing. }
  destruct (inserir_resultado_cases env p id st j Hj)
    as [[_ ?]|(d & v1 & v2 & w1 & w2 & o & -> & H1 & H2 & Hw1 & Hw2 & Ho)];
    [by left|].
  right. rewrite (inserir_resultado_ok env d id st j v1 v2 w1 w2 o) by done. eauto.
Qed.

Lemma create_atleta_store (env : Env) (p : payload) (st : Store) :
  (create_atleta env p st).2 = st
  ∨ ∃ a, atleta_id a = next_id (atleta_id <$> atletas st)
         ∧ (create_atleta env p st).2 = add_atleta a st.
Proof.
  unfold create_atleta, handle, create_atleta_body.
  destruct p as [| |d]; run_session; [by left..|].
  destruct (d !! "email") as [e|]; run_session; [|by left].
  destruct (atleta_com_email e st); run_session; [by left|].
  destruct (d !! "nome") as [n|]; run_session; [|by left].
  destruct (truthy _); run_session;
    [|right; eexists; split; [|reflexivity]; reflexivity].
  unfold strptime. destruct (default JNull _); run_session; try by left.
  destruct (strptime_ymd env s); run_session;
    [right; eexists; split; [|reflexivity]; reflexivity|by left].
Qed.

Lemma criar_inscricao_store (env : Env) (p : payload) (st : Store) :
  (criar_inscricao env p st).2 = st
  ∨ ∃ i, inscricao_id i = next_id (inscricao_id <$> inscricoes st)
         ∧ (criar_inscricao env p st).2 = add_inscricao i st.
Proof.
  unfold criar_inscricao, handle, criar_inscricao_body.
  destruct p as [| |d]; run_session; [by left..|].
  destruct (d !! "torneio_id") as [t|]; run_session; [|by left].
  destruct (d !! "categoria_id") as [c|]; run_session; [|by left].
  destruct (d !! "atleta_id") as [a|]; run_session; [|by left].
  destruct (inscricao_existente t c a st); run_session; [by left|].
  right. eexists. split; [|reflexivity]. reflexivity.
Qed.

Lemma read_only_store (env : Env) (r : request) (st : Store) :
  match r with
  | GetAtletas _ _ _ _ | GetRanking _ _ | GetChaveamento _ _ => (serve env r st).2 = st
  | _ => True
  end.
Proof.
  destruct r as [cat country page per_page| |cat limit|t c| | |]; try done; simpl.
  - unfold get_atletas, handle_ro, get_atletas_body.
    destruct page, per_page; run_session; try done;
      unfold paginate_query; case_decide; by run_session.
  - by rewrite get_ranking_run.
  - unfold get_chaveamento, handle_ro, get_chaveamento_body. run_session.
    by destruct (first_chaveamento t c st).
Qed.

(** X17. Every request keeps the primary keys of the four tables unique; the
    uniqueness that the bracket theorem asks of the registration ids holds in
    every store the handlers can build. *)
Lemma serve_chaves_unicas (env : Env) (r : request) (st : Store) :
  chaves_unicas st → chaves_unicas (serve env r st).2.
Proof.
  intros [Ha Hi Hj Hc].
  pose proof (read_only_store env r st) as Hro.
  destruct r as [| p | | | now tape t c | p id | p]; simpl in *;
    try (rewrite Hro; by constructor).
  - destruct (create_atleta_store env p st) as [->|(a & Hid & ->)]; [done|].
    constructor; try done. unfold add_atleta. cbn [atletas].
    rewrite fmap_app. cbn [fmap list_fmap]. rewrite Hid.
    by apply NoDup_snoc_next_id.
  - destruct (decide (length (filter (confirmada t c) (inscricoes st)) < 2)%nat)
      as [Hlt|Hge].
    { by rewrite gerar_chaveamento_few. }
    constructor.
    + rewrite gerar_chaveamento_ok by lia. cbn zeta. cbn [snd].
      unfold add_jogos. cbn [atletas]. by rewrite upsert_atletas.
    + rewrite gerar_chaveamento_ok by lia. cbn zeta. cbn [snd].
      unfold add_jogos. cbn [inscricoes]. by rewrite upsert_inscricoes.
    + rewrite gerar_chaveamento_ok by lia. cbn zeta. cbn [snd].
      unfold add_jogos. cbn [jogos]. rewrite upsert_jogos, fmap_app.
      by apply novos_jogos_NoDup.
    + rewrite gerar_chaveamento_chaveamentos by lia. cbn zeta.
      destruct (first_chaveamento t c st).
      * by rewrite overwrite_ids.
      * rewrite fmap_app. by apply NoDup_snoc_next_id.
  - destruct (inserir_resultado_store env p id st) as [->|(j' & ->)]; [done|].
    constructor; try done. by rewrite write_jogo_ids.
  - destruct (criar_inscricao_store env p st) as [->|(i & Hid & ->)]; [done|].
    constructor; try done. unfold add_inscricao. cbn [inscricoes].
    rewrite fmap_app. cbn [fmap list_fmap]. rewrite Hid.
    by apply NoDup_snoc_next_id.
Qed.

Lemma store_vazio_chaves_unicas : chaves_unicas store_vazio.
Proof. constructor; apply NoDup_nil_2. Qed.

(** * Beyond the claims: further properties of the handlers *)

(** ** Creating athletes *)

Lemma head_filter_None {A} (P : A → Prop) `{∀ x, Decision (P x)} (l : list A) :
  head (filter P l) = None ↔ ∀ x, x ∈ l → ¬ P x.
Proof.
  split.
  - intros Hh x Hin HP.
    destruct (head_filter_elem P l x Hin HP) as [y Hy]. congruence.
  - intros Hall. by rewrite filter_none.
Qed.

Lemma create_atleta_ok (env : Env) (d : gmap string jval) (st : Store)
    (e n : jval) (nasc : option Z) :
  d !! "email" = Some e →
  atleta_com_email e st = None →
  d !! "nome" = Some n →
  data_do_corpo env d = Some nasc →
  create_atleta env (JsonObject d) st
  = ({| status := 201; body := BAtleta (atleta_do_corpo env d nasc st) |},
     add_atleta (atleta_do_corpo env d nasc st) st).
Proof.
  intros He Hfresh Hn Hdate.
  unfold create_atleta, handle, create_atleta_body, atleta_do_corpo. run_session.
  rewrite He. run_session. rewrite Hfresh. run_session. rewrite Hn. run_session.
  unfold data_do_corpo in Hdate. unfold strptime.
  destruct (default JNull (d !! "data_nascimento")) as [|b|z|s]; cbn [truthy] in *.
  - simplify_eq. by run_session.
  - destruct b; simplify_eq. by run_session.
  - destruct (negb (z =? 0)); simplify_eq. by run_session.
  - destruct (String.eqb s ""); cbn [negb]; [simplify_eq; by run_session|].
    destruct (strptime_ymd env s); simplify_eq. by run_session.
Qed.

Lemma create_atleta_cases (env : Env) (p : payload) (st : Store) :
  (status (create_atleta env p st).1 ≠ 201 ∧ (create_atleta env p st).2 = st)
  ∨ ∃ d e n nasc,
      p = JsonObject d ∧ d !! "email" = Some e ∧ atleta_com_email e st = None
      ∧ d !! "nome" = Some n ∧ data_do_corpo env d = Some nasc.
Proof.
  destruct p as [| |d]; [by left..|].
  destruct (d !! "email") as [e|] eqn:He.
  2:{ left. unfold create_atleta, handle, create_atleta_body. run_session.
      rewrite He. by run_session. }
  destruct (atleta_com_email e st) as [a|] eqn:Hfresh.
  { left. unfold create_atleta, handle, create_atleta_body. run_session.
    rewrite He. run_session. rewrite Hfresh. by run_session. }
  destruct (d !! "nome") as [n|] eqn:Hn.
  2:{ left. unfold create_atleta, handle, create_atleta_body. run_session.
      rewrite He. run_session. rewrite Hfresh. run_session. rewrite Hn.
      by run_session. }
  destruct (data_do_corpo env d) as [nasc|] eqn:Hdate; [right; by eauto 10|].
  left. unfold create_atleta, handle, create_atleta_body. run_session.
  rewrite He. run_session. rewrite Hfresh. run_session. rewrite Hn. run_session.
  unfold data_do_corpo in Hdate. unfold strptime.
  destruct (default JNull (d !! "data_nascimento")) as [|b|z|s]; cbn [truthy] in *.
  - done.
  - destruct b; simplify_eq. by run_session.
  - destruct (negb (z =? 0)); simplify_eq. by run_session.
  - destruct (String.eqb s ""); cbn [negb]; [done|].
    destruct (strptime_ymd env s); simplify_eq. by run_session.
Qed.

Lemma atleta_com_email_None (e : jval) (st : Store) :
  atleta_com_email e st = None ↔ e ∉ email <$> atletas st.
Proof.
  unfold atleta_com_email. rewrite head_filter_None, list_elem_of_fmap. split.
  - intros Hall (a & -> & Hin). by apply (Hall a).
  - intros Hno a Hin Ha. apply Hno. eauto.
Qed.

(** X1. A creation request whose body is a JSON object with a text as
    email that no stored athlete has, a text as name, no birth date or one
    that parses, no height and no weight, and for country, picture and
    category nothing or a text, answers 201 and appends exactly one athlete:
    its id is new, its email, name, country, picture and category are the
    submitted texts (null when absent), its height and weight are null, its
    ranking position and active flag are the column defaults. The other
    tables are untouched. *)
Theorem create_atleta_created (env : Env) (d : gmap string jval) (st : Store)
    (e n : string) (nasc : option Z) :
  let out := create_atleta env (JsonObject d) st in
  emails_tipados st →
  d !! "email" = Some (JStr e) →
  JStr e ∉ email <$> atletas st →
  d !! "nome" = Some (JStr n) →
  data_do_corpo env d = Some nasc →
  opcionais_do_atleta d →
  ∃ a : Atleta,
    out.1 = {| status := 201; body := BAtleta a |}
    ∧ atletas out.2 = atletas st ++ [a]
    ∧ (atleta_id a ∉ atleta_id <$> atletas st)
    ∧ email a = JStr e ∧ nome a = JStr n ∧ data_nascimento a = nasc
    ∧ altura a = JNull
    ∧ peso a = JNull
    ∧ pais a = default JNull (d !! "pais")
    ∧ foto_url a = default JNull (d !! "foto_url")
    ∧ categoria a = default JNull (d !! "categoria")
    ∧ ranking_posicao a = atleta_ranking_default env
    ∧ ativo a = atleta_ativo_default env
    ∧ (inscricoes out.2, jogos out.2, chaveamentos out.2)
      = (inscricoes st, jogos st, chaveamentos st).
Proof.
  intros out _ He Hfresh%atleta_com_email_None Hn Hdate (Halt & Hpeso & _). subst out.
  rewrite (create_atleta_ok env d st (JStr e) (JStr n) nasc) by done. cbn [fst snd].
  eexists. split; [reflexivity|].
  unfold atleta_do_corpo. cbn. rewrite He, Hn, Halt, Hpeso. cbn.
  split_and!; try done. apply next_id_fresh.
Qed.



(** ** Creating registrations *)

Lemma inscricao_existente_None (t c a : jval) (st : Store) :
  inscricao_existente t c a st = None ↔ (t, c, a) ∉ tripla <$> inscricoes st.
Proof.
  unfold inscricao_existente. rewrite head_filter_None, list_elem_of_fmap. split.
  - intros Hall (i & Heq & Hin). apply (Hall i Hin).
    unfold tripla in Heq. by simplify_eq.
  - intros Hno i Hin (? & ? & ?). apply Hno. exists i. unfold tripla.
    split; [congruence|done].
Qed.

Lemma criar_inscricao_ok (env : Env) (d : gmap string jval) (st : Store)
    (t c a : jval) :
  d !! "torneio_id" = Some t →
  d !! "categoria_id" = Some c →
  d !! "atleta_id" = Some a →
  inscricao_existente t c a st = None →
  criar_inscricao env (JsonObject d) st
  = ({| status := 201; body := BInscricao (inscricao_do_corpo env d st) |},
     add_inscricao (inscricao_do_corpo env d st) st).
Proof.
  intros Ht Hc Ha Hfresh.
  unfold criar_inscricao, handle, criar_inscricao_body, inscricao_do_corpo.
  run_session. rewrite Ht. run_session. rewrite Hc. run_session.
  rewrite Ha. run_session. rewrite Hfresh. by run_session.
Qed.

Lemma criar_inscricao_cases (env : Env) (p : payload) (st : Store) :
  (status (criar_inscricao env p st).1 ≠ 201 ∧ (criar_inscricao env p st).2 = st)
  ∨ ∃ d t c a,
      p = JsonObject d ∧ d !! "torneio_id" = Some t ∧ d !! "categoria_id" = Some c
      ∧ d !! "atleta_id" = Some a ∧ inscricao_existente t c a st = None.
Proof.
  destruct p as [| |d]; [by left..|].
  destruct (d !! "torneio_id") as [t|] eqn:Ht.
  2:{ left. unfold criar_inscricao, handle, criar_inscricao_body. run_session.
      rewrite Ht. by run_session. }
  destruct (d !! "categoria_id") as [c|] eqn:Hc.
  2:{ left. unfold criar_inscricao, handle, criar_inscricao_body. run_session.
      rewrite Ht. run_session. rewrite Hc. by run_session. }
  destruct (d !! "atleta_id") as [a|] eqn:Ha.
  2:{ left. unfold criar_inscricao, handle, criar_inscricao_body. run_session.
      rewrite Ht. run_session. rewrite Hc. run_session. rewrite Ha.
      by run_session. }
  destruct (inscricao_existente t c a st) as [i|] eqn:Hfresh; [|right; by eauto 10].
  left. unfold criar_inscricao, handle, criar_inscricao_body. run_session.
  rewrite Ht. run_session. rewrite Hc. run_session. rewrite Ha. run_session.
  rewrite Hfresh. by run_session.
Qed.

(** X4. Over a registration table whose ids are integers, a registration
    request whose body is a JSON object with three integer ids (of 64 bits),
    for a (tournament, category, athlete) triple that no stored registration
    has, and with no partner or an integer one and no team name or a text,
    answers 201 and appends exactly one registration: its id is new, it
    carries the triple, the partner and team name as submitted (null when
    absent) and the status column's default, never a status from the body.
    The other tables are untouched. *)
Theorem criar_inscricao_created (env : Env) (d : gmap string jval) (st : Store)
    (t c a : jval) :
  let out := criar_inscricao env (JsonObject d) st in
  inscricoes_tipadas st →
  d !! "torneio_id" = Some t →
  d !! "categoria_id" = Some c →
  d !! "atleta_id" = Some a →
  inteiro t → inteiro c → inteiro a →
  opcionais_da_inscricao d →
  (t, c, a) ∉ tripla <$> inscricoes st →
  ∃ i : Inscricao,
    out.1 = {| status := 201; body := BInscricao i |}
    ∧ inscricoes out.2 = inscricoes st ++ [i]
    ∧ (inscricao_id i ∉ inscricao_id <$> inscricoes st)
    ∧ tripla i = (t, c, a)
    ∧ parceiro_id i = default JNull (d !! "parceiro_id")
    ∧ nome_equipe i = default JNull (d !! "nome_equipe")
    ∧ i_status i = inscricao_status_default env
    ∧ (atletas out.2, jogos out.2, chaveamentos out.2)
      = (atletas st, jogos st, chaveamentos st)
    ∧ inscricoes_tipadas out.2.
Proof.
  intros out Hst Ht Hc Ha Hit Hic Hia _ Hfresh%inscricao_existente_None. subst out.
  rewrite (criar_inscricao_ok env d st t c a) by done. cbn [fst snd].
  eexists. split; [reflexivity|].
  unfold inscricao_do_corpo, tripla, inscricoes_tipadas. cbn. rewrite Ht, Hc, Ha. cbn.
  split_and!; try done; [apply next_id_fresh|].
  apply Forall_app. split; [done|]. by repeat constructor.
Qed.


(** X6. Registration is all or nothing. Unless the answer is 201 the store is
    unchanged, and it is 201 only for a JSON object with the three ids whose
    triple no stored registration has. The ids are read in the order
    tournament, category, athlete: the first one missing is the key error of
    the 500 answer; a body that is not JSON, or JSON that is not an object,
    is answered 500 too. *)
Theorem criar_inscricao_rejects (env : Env) (p : payload) (st : Store) :
  let out := criar_inscricao env p st in
  (status out.1 ≠ 201 → out.2 = st)
  ∧ (status out.1 = 201 →
       ∃ d t c a, p = JsonObject d ∧ d !! "torneio_id" = Some t
          ∧ d !! "categoria_id" = Some c ∧ d !! "atleta_id" = Some a
          ∧ ((t, c, a) ∉ tripla <$> inscricoes st))
  ∧ (∀ d, p = JsonObject d → d !! "torneio_id" = None →
       out.1 = {| status := 500; body := BException (KeyError "torneio_id") |})
  ∧ (∀ d, p = JsonObject d → is_Some (d !! "torneio_id") →
       d !! "categoria_id" = None →
       out.1 = {| status := 500; body := BException (KeyError "categoria_id") |})
  ∧ (∀ d, p = JsonObject d → is_Some (d !! "torneio_id") →
       is_Some (d !! "categoria_id") → d !! "atleta_id" = None →
       out.1 = {| status := 500; body := BException (KeyError "atleta_id") |})
  ∧ (p = NoJson → out.1 = {| status := 500; body := BException BadRequest |})
  ∧ (p = JsonOther → out.1 = {| status := 500; body := BException TypeError |}).
Proof.
  intros out. subst out.
  pose proof (criar_inscricao_cases env p st) as Hcases.
  split_and!.
  - destruct Hcases as [[_ Hst]|(d & t & c & a & -> & Ht & Hc & Ha & Hf)]; [done|].
    by rewrite (criar_inscricao_ok env d st t c a).
  - destruct Hcases as [[Hne _]|(d & t & c & a & -> & Ht & Hc & Ha & Hf)];
      [done|]. intros _. exists d, t, c, a.
    by rewrite <-inscricao_existente_None.
  - intros d -> Ht. unfold criar_inscricao, handle, criar_inscricao_body.
    run_session. rewrite Ht. by run_session.
  - intros d -> [t Ht] Hc. unfold criar_inscricao, handle, criar_inscricao_body.
    run_session. rewrite Ht. run_session. rewrite Hc. by run_session.
  - intros d -> [t Ht] [c Hc] Ha.
    unfold criar_inscricao, handle, criar_inscricao_body.
    run_session. rewrite Ht. run_session. rewrite Hc. run_session.
    rewrite Ha. by run_session.
  - by intros ->.
  - by intros ->.
Qed.

(** ** Entering results *)

(** X7. Result entry is all or nothing. For a match found under the id, a
    body without "placar_equipe1" is answered 500 with that key error; a
    body with the first score but without "placar_equipe2" is answered 500
    with the key error of the second, and the first score, although already
    assigned, is not stored; a body with both scores of which the storage
    layer refuses a score or the notes is answered 500 too. In general,
    unless the answer is 200 the store is the one before the request, and
    the answer is 200 exactly for a JSON object with both scores, submitted
    to a stored match, whose scores and notes the columns accept. *)
Theorem inserir_resultado_rejects (env : Env) (p : payload) (id : Z) (st : Store) :
  let out := inserir_resultado env p id st in
  (status out.1 ≠ 200 → out.2 = st)
  ∧ (status out.1 = 200 ↔
       (∃ d v1 v2, p = JsonObject d ∧ is_Some (get_jogo id st)
          ∧ d !! "placar_equipe1" = Some v1 ∧ d !! "placar_equipe2" = Some v2
          ∧ is_Some (coluna_placar env v1) ∧ is_Some (coluna_placar env v2)
          ∧ is_Some (coluna_observacoes env (default JNull (d !! "observacoes")))))
  ∧ (∀ d, p = JsonObject d → is_Some (get_jogo id st) →
       d !! "placar_equipe1" = None →
       out = ({| status := 500; body := BException (KeyError "placar_equipe1") |}, st))
  ∧ (∀ d, p = JsonObject d → is_Some (get_jogo id st) →
       is_Some (d !! "placar_equipe1") → d !! "placar_equipe2" = None →
       out = ({| status := 500; body := BException (KeyError "placar_equipe2") |}, st))
  ∧ (∀ d v1 v2, p = JsonObject d → is_Some (get_jogo id st) →
       d !! "placar_equipe1" = Some v1 → d !! "placar_equipe2" = Some v2 →
       coluna_placar env v1 = None ∨ coluna_placar env v2 = None
       ∨ coluna_observacoes env (default JNull (d !! "observacoes")) = None →
       out = ({| status := 500; body := BException StorageError |}, st))
  ∧ (p = JsonOther → is_Some (get_jogo id st) →
       out = ({| status := 500; body := BException TypeError |}, st)).
Proof.
  intros out. subst out.
  assert (∀ d j, get_jogo id st = Some j → d !! "placar_equipe1" = None →
            inserir_resultado env (JsonObject d) id st
            = ({| status := 500; body := BException (KeyError "placar_equipe1") |}, st))
    as Hk1.
  { intros d j Hj H1. unfold inserir_resultado, handle, inserir_resultado_body.
    run_session. rewrite Hj. run_session. rewrite H1. by run_session. }
  assert (∀ d j v1, get_jogo id st = Some j → d !! "placar_equipe1" = Some v1 →
            d !! "placar_equipe2" = None →
            inserir_resultado env (JsonObject d) id st
            = ({| status := 500; body := BException (KeyError "placar_equipe2") |}, st))
    as Hk2.
  { intros d j v1 Hj H1 H2. unfold inserir_resultado, handle, inserir_resultado_body.
    run_session. rewrite Hj. run_session. rewrite H1. run_session.
    rewrite H2. by run_session. }
  assert (∀ j, get_jogo id st = Some j →
            inserir_resultado env JsonOther id st
            = ({| status := 500; body := BException TypeError |}, st)) as Hty.
  { intros j Hj. unfold inserir_resultado, handle, inserir_resultado_body.
    run_session. rewrite Hj. by run_session. }
  split_and!.
  - destruct (get_jogo id st) as [j|] eqn:Hj.
    2:{ by rewrite inserir_resultado_missing. }
    by destruct (inserir_resultado_cases env p id st j Hj) as [[? ?]|Hok];
      [|destruct Hok as (d & v1 & v2 & w1 & w2 & o & -> & H1 & H2 & Hw1 & Hw2 & Ho);
        rewrite (inserir_resultado_ok env d id st j v1 v2 w1 w2 o)].
  - split.
    + destruct (get_jogo id st) as [j|] eqn:Hj.
      2:{ by rewrite inserir_resultado_missing. }
      destruct (inserir_resultado_cases env p id st j Hj)
        as [[? ?]|(d & v1 & v2 & w1 & w2 & o & -> & H1 & H2 & Hw1 & Hw2 & Ho)];
        [done|].
      intros _. exists d, v1, v2. rewrite Hw1, Hw2, Ho. by eauto 10.
    + intros (d & v1 & v2 & -> & [j Hj] & H1 & H2 & [w1 Hw1] & [w2 Hw2] & [o Ho]).
      by rewrite (inserir_resultado_ok env d id st j v1 v2 w1 w2 o).
  - intros d -> [j Hj] H1. by apply (Hk1 d j).
  - intros d -> [j Hj] [v1 H1] H2. by apply (Hk2 d j v1).
  - intros d v1 v2 -> [j Hj] H1 H2 Hno.
    by apply (inserir_resultado_refused env d id st j v1 v2).
  - intros -> [j Hj]. by apply (Hty j).
Qed.

(** X8. The last result wins. For a match found under the id and a body
    that carries two scores, with scores and notes that the columns accept,
    submitting the body after any other submission to the match, accepted
    or not, gives the same answer and the same store as submitting it
    alone: nothing of the earlier submission (scores or notes) survives. *)
Theorem inserir_resultado_last_wins (env : Env) (p1 : payload)
    (d2 : gmap string jval) (id : Z) (st : Store) (v1 v2 : jval) :
  is_Some (get_jogo id st) →
  d2 !! "placar_equipe1" = Some v1 →
  d2 !! "placar_equipe2" = Some v2 →
  is_Some (coluna_placar env v1) →
  is_Some (coluna_placar env v2) →
  is_Some (coluna_observacoes env (default JNull (d2 !! "observacoes"))) →
  inserir_resultado env (JsonObject d2) id (inserir_resultado env p1 id st).2
  = inserir_resultado env (JsonObject d2) id st.
Proof.
  intros [j Hj] H1 H2 [w1 Hw1] [w2 Hw2] [o Ho].
  destruct (inserir_resultado_cases env p1 id st j Hj)
    as [[_ ->]|(d1 & a1 & a2 & b1 & b2 & c & -> & Ha1 & Ha2 & Hb1 & Hb2 & Hc)];
    [done|].
  rewrite (inserir_resultado_ok env d1 id st j a1 a2 b1 b2 c) by done.
  cbn zeta. cbn [snd].
  set (j1 := com_resultado b1 b2 c j).
  destruct (get_jogo_id _ _ _ Hj) as [Hid _].
  assert (get_jogo id (write_jogo j1 st) = Some j1) as Hj1
    by (by apply (get_jogo_write_jogo id st j)).
  rewrite (inserir_resultado_ok env d2 id _ j1 v1 v2 w1 w2 o) by done.
  rewrite (inserir_resultado_ok env d2 id st j v1 v2 w1 w2 o) by done. cbn zeta.
  rewrite write_jogo_write_jogo by done. done.
Qed.

(** ** Brackets *)

Lemma filter_nil_head {A} (P : A → Prop) `{∀ x, Decision (P x)} (l : list A) :
  head (filter P l) = None → filter P l = [].
Proof. by destruct (filter P l). Qed.

Lemma upsert_first (env : Env) (now t c : Z) (e : Estrutura) (st : Store) :
  first_chaveamento t c (upsert env now t c e st).2
  = Some (upsert env now t c e st).1.
Proof.
  unfold upsert. destruct (first_chaveamento t c st) as [ch|] eqn:Hch; cbn [fst snd].
  - unfold first_chaveamento in *. unfold update_chaveamento. cbn [chaveamentos].
    change (λ c0, if decide (chaveamento_id c0 = chaveamento_id ch)
                  then set_estrutura e now c0 else c0)
      with (overwrite (chaveamento_id ch) e now).
    rewrite filter_overwrite.
    destruct (filter _ (chaveamentos st)) as [|x l]; simplify_eq/=.
    unfold overwrite. by rewrite decide_True.
  - unfold first_chaveamento in *. unfold add_chaveamento. cbn [chaveamentos].
    rewrite filter_app, (filter_nil_head _ _ Hch), filter_cons.
    by rewrite decide_True by done.
Qed.

(** X9. The bracket a successful generation answers with belongs to the
    pair, and its structure lists every confirmed registration of the pair
    exactly once (in the shuffled order), with no phases and the type
    "eliminacao_simples". *)
Theorem gerar_chaveamento_structure (env : Env) (now : Z) (tape : list nat)
    (t c : Z) (st : Store) :
  (2 ≤ length (filter (confirmada t c) (inscricoes st)))%nat →
  ∃ ch : Chaveamento,
    (gerar_chaveamento env now tape t c st).1
    = {| status := 201; body := BChaveamento ch |}
    ∧ c_torneio_id ch = t ∧ c_categoria_id ch = c
    ∧ participantes (estrutura_json ch) ≡ₚ filter (confirmada t c) (inscricoes st)
    ∧ fases (estrutura_json ch) = []
    ∧ tipo (estrutura_json ch) = "eliminacao_simples".
Proof.
  intros Hok. rewrite gerar_chaveamento_ok by done. cbn zeta. cbn [fst].
  eexists. split; [reflexivity|].
  unfold upsert. destruct (first_chaveamento t c st) as [ch|] eqn:Hch; cbn.
  - destruct (first_chaveamento_do _ _ _ _ Hch) as [[? ?] _].
    split_and!; try done. apply shuffle_Permutation.
  - split_and!; try done. apply shuffle_Permutation.
Qed.

(** X10. Generate, then fetch: after a successful generation the fetch
    endpoint for the pair answers 200 with the very bracket the generation
    answered with, whether the row was inserted or overwritten. *)
Theorem gerar_then_get_chaveamento (env : Env) (now : Z) (tape : list nat)
    (t c : Z) (st : Store) :
  let out := gerar_chaveamento env now tape t c st in
  status out.1 = 201 →
  ∃ ch js,
    body out.1 = BChaveamento ch
    ∧ get_chaveamento t c out.2
      = ({| status := 200; body := BChaveamentoJogos ch js |}, out.2).
Proof.
  intros out Hok%gerar_chaveamento_status. subst out.
  rewrite gerar_chaveamento_ok by done. cbn zeta. cbn [fst snd body].
  set (up := upsert env now t c _ st). set (st' := add_jogos _ _).
  assert (first_chaveamento t c st' = Some up.1) as Hfirst.
  { unfold st', first_chaveamento. rewrite chaveamentos_add_jogos.
    apply upsert_first. }
  eexists _, _. split; [reflexivity|].
  unfold get_chaveamento, handle_ro, get_chaveamento_body. run_session.
  rewrite Hfirst. by run_session.
Qed.


(** ** Listings *)

Lemma get_atletas_run (cat country : option string) (page per_page : int_arg)
    (st : Store) :
  get_atletas cat country page per_page st =
    (match valor page 1, valor per_page 20 with
     | Some p, Some k =>
         if decide (fits_int64 (page_limit k) ∧ fits_int64 (page_offset p k)) then
           let pg := paginate p k (atletas_listados cat country st) in
           {| status := 200; body := BAtletas (items pg) (total pg) (pages pg) p |}
         else {| status := 500; body := BException StorageError |}
     | _, _ => {| status := 500; body := BException ValueError |}
     end, st).
Proof.
  unfold get_atletas, handle_ro, get_atletas_body, atletas_listados.
  destruct page, per_page; cbn [valor]; run_session; try done;
    unfold paginate_query; repeat case_decide; by run_session.
Qed.

Lemma StronglySorted_drop {A} (R : relation A) (l : list A) (n : nat) :
  StronglySorted R l → StronglySorted R (drop n l).
Proof.
  intros Hs. rewrite <-(take_drop n l) in Hs.
  by apply StronglySorted_app_1_r in Hs.
Qed.

Lemma join_pages {A} (rows : list A) (k : nat) (n : nat) :
  mjoin ((λ p, take k (drop ((p - 1) * k) rows)) <$> seq 1 n) = take (n * k) rows.
Proof.
  induction n as [|n IH]; [done|].
  rewrite seq_S, fmap_app, join_app, IH. cbn [fmap list_fmap mjoin list_join].
  rewrite app_nil_r. replace (1 + n - 1)%nat with n by lia.
  rewrite take_take_drop. f_equal. lia.
Qed.

Lemma pages_cover (len k : Z) :
  0 ≤ len → 1 ≤ k → len ≤ ((len + k - 1) `div` k) * k.
Proof.
  intros Hlen Hk.
  pose proof (Z.div_mod (len + k - 1) k) as Hdm.
  pose proof (Z.mod_pos_bound (len + k - 1) k). lia.
Qed.

(** X12. Walking the pages. For a page size [k] from 1 to below 2^63 and
    fixed filters, over an athlete table of fewer than 2^63 rows, every page
    [p >= 1] whose offset [(p - 1) * k] is below 2^63 answers 200 with at
    most [k] athletes and the same total and page count, whatever [p]; such
    pages past the last are empty; a page whose offset reaches 2^63 is
    refused with 500; and the pages 1 to the page count, one after the
    other, are the active athletes matching the filters, each exactly once,
    in ranking order (positions ascending, athletes without position
    last). *)
Theorem get_atletas_pages (cat country : option string) (k : Z) (st : Store) :
  1 ≤ k →
  k < 2 ^ 63 →
  Z.of_nat (length (atletas st)) < 2 ^ 63 →
  ∃ (n : nat) (all : list Atleta),
    (∀ p : nat, (1 ≤ p)%nat → (Z.of_nat p - 1) * k < 2 ^ 63 →
       ∃ l, get_atletas cat country (ArgInt (Z.of_nat p)) (ArgInt k) st
            = ({| status := 200;
                  body := BAtletas l (Z.of_nat (length all)) (Z.of_nat n)
                            (Z.of_nat p) |}, st)
            ∧ Z.of_nat (length l) ≤ k
            ∧ ((n < p)%nat → l = []))
    ∧ (∀ p : nat, (1 ≤ p)%nat → 2 ^ 63 ≤ (Z.of_nat p - 1) * k →
       get_atletas cat country (ArgInt (Z.of_nat p)) (ArgInt k) st
       = ({| status := 500; body := BException StorageError |}, st))
    ∧ mjoin (pagina cat country k st <$> seq 1 n) = all
    ∧ all ≡ₚ filter_by_pais country (filter_by_categoria cat (atletas_ativos st))
    ∧ posicoes_ascendentes all ∧ sem_posicao_no_fim all.
Proof.
  intros Hk Hk64 Hlen64. set (rows := atletas_listados cat country st).
  set (n := Z.to_nat ((Z.of_nat (length rows) + k - 1) `div` k)).
  assert (rows ≡ₚ filter_by_pais country (filter_by_categoria cat (atletas_ativos st)))
    as Hperm by (unfold rows, atletas_listados, order_by_ranking;
                 apply ordena_Permutation).
  assert (length rows ≤ length (atletas st))%nat as Hlen.
  { rewrite Hperm. unfold filter_by_pais, filter_by_categoria, atletas_ativos.
    destruct (given country), (given cat);
      repeat (etrans; [apply length_filter|]); done. }
  assert (0 ≤ (Z.of_nat (length rows) + k - 1) `div` k) as Hn0
    by (apply Z.div_pos; lia).
  assert (length rows ≤ n * Z.to_nat k)%nat as Hcover.
  { pose proof (pages_cover (Z.of_nat (length rows)) k ltac:(lia) Hk). subst n. nia. }
  assert (∀ p : nat, (1 ≤ p)%nat → (p ≤ n)%nat →
            (Z.of_nat p - 1) * k < Z.of_nat (length rows)) as Hlast.
  { intros p Hp Hpn.
    assert (Z.of_nat n * k < Z.of_nat (length rows) + k); [|nia].
    subst n. rewrite Z2Nat.id by done.
    pose proof (Z.mul_div_le (Z.of_nat (length rows) + k - 1) k ltac:(lia)). lia. }
  assert (∀ p : nat, (1 ≤ p)%nat → (Z.of_nat p - 1) * k < 2 ^ 63 →
            get_atletas cat country (ArgInt (Z.of_nat p)) (ArgInt k) st
            = ({| status := 200;
                  body := BAtletas
                            (take (Z.to_nat k) (drop ((p - 1) * Z.to_nat k) rows))
                            (Z.of_nat (length rows)) (Z.of_nat n) (Z.of_nat p) |}, st))
    as Hrun.
  { intros p Hp Hoff. rewrite get_atletas_run. cbn [valor]. cbn zeta.
    unfold page_offset, page_limit, paginate.
    rewrite !(decide_False (P := k < 1)) by lia.
    rewrite !(decide_False (P := Z.of_nat p < 1)) by lia.
    rewrite decide_True by (unfold fits_int64; split; nia).
    cbn [items total pages].
    fold rows. do 3 f_equal; [|subst n; lia].
    do 2 f_equal. nia. }
  exists n, rows. split_and!.
  - intros p Hp Hoff. eexists. split; [by apply Hrun|]. split.
    + rewrite length_take. lia.
    + intros Hlt. rewrite drop_ge; [by rewrite take_nil|]. nia.
  - intros p Hp Hoff. rewrite get_atletas_run. cbn [valor].
    rewrite decide_False; [done|].
    unfold page_offset, page_limit, fits_int64.
    rewrite !(decide_False (P := k < 1)) by lia.
    rewrite !(decide_False (P := Z.of_nat p < 1)) by lia. lia.
  - transitivity (mjoin ((λ p, take (Z.to_nat k) (drop ((p - 1) * Z.to_nat k) rows))
                           <$> seq 1 n)).
    + f_equal. apply list_fmap_ext. intros i p Hp.
      apply lookup_seq in Hp as [-> Hi]. unfold pagina.
      rewrite Hrun; [done|lia|].
      pose proof (Hlast (1 + i)%nat ltac:(lia) ltac:(lia)). lia.
    + rewrite join_pages. by apply take_ge.
  - done.
  - apply sorted_ordem, order_by_ranking_sorted.
  - apply sorted_ordem, order_by_ranking_sorted.
Qed.

Lemma filter_by_categoria_elem (cat : option string) (rows : list Atleta) (a : Atleta) :
  a ∈ filter_by_categoria cat rows ↔
    a ∈ rows ∧ ∀ c, given cat = Some c → categoria a = JStr c.
Proof.
  unfold filter_by_categoria. destruct (given cat) as [c|].
  - rewrite list_elem_of_filter. split.
    + intros [? ?]. split; [done|]. by intros ? [= <-].
    + intros [? Hc]. split; [by apply Hc|done].
  - split; [by intros ?|by intros [? _]].
Qed.

Lemma filter_by_pais_elem (country : option string) (rows : list Atleta) (a : Atleta) :
  a ∈ filter_by_pais country rows ↔
    a ∈ rows ∧ ∀ s, given country = Some s → pais a = JStr s.
Proof.
  unfold filter_by_pais. destruct (given country) as [c|].
  - rewrite list_elem_of_filter. split.
    + intros [? ?]. split; [done|]. by intros ? [= <-].
    + intros [? Hc]. split; [by apply Hc|done].
  - split; [by intros ?|by intros [? _]].
Qed.

(** X13. Parameters of the athlete listing. Without [page] and [per_page]
    the answer is that of page 1 with 20 per page; a [page] or [per_page]
    that is not an integer is answered 500 (value error) whatever the other
    parameters; an empty [categoria] or [pais] filters nothing, as if it
    were absent. The store is never changed. *)
Theorem get_atletas_parameters (cat country : option string)
    (page per_page : int_arg) (st : Store) :
  (get_atletas cat country page per_page st).2 = st
  ∧ get_atletas cat country ArgMissing ArgMissing st
    = get_atletas cat country (ArgInt 1) (ArgInt 20) st
  ∧ (page = ArgMalformed ∨ per_page = ArgMalformed →
     get_atletas cat country page per_page st
     = ({| status := 500; body := BException ValueError |}, st))
  ∧ get_atletas (Some "") country page per_page st
    = get_atletas None country page per_page st
  ∧ get_atletas cat (Some "") page per_page st
    = get_atletas cat None page per_page st.
Proof.
  rewrite !get_atletas_run. split_and!; try done.
  intros [-> | ->]; cbn [valor]; [done|]. by destruct (valor page 1).
Qed.

(** X14. What a listing answer holds. Every athlete of the answer is a
    stored one that is active, has the requested category when a non-empty
    [categoria] is given and the requested country when a non-empty [pais]
    is given; along the page positions ascend and athletes without position
    come last; and the reported total is the number of stored athletes that
    pass the filters, whatever the page. *)
Theorem get_atletas_filters (cat country : option string) (page per_page : int_arg)
    (st : Store) (l : list Atleta) (tot pgs cur : Z) :
  body (get_atletas cat country page per_page st).1 = BAtletas l tot pgs cur →
  Forall (λ a, a ∈ atletas st ∧ ativo a = Some true
               ∧ (∀ c, given cat = Some c → categoria a = JStr c)
               ∧ (∀ s, given country = Some s → pais a = JStr s)) l
  ∧ posicoes_ascendentes l ∧ sem_posicao_no_fim l
  ∧ tot = Z.of_nat (length (filter_by_pais country
                              (filter_by_categoria cat (atletas_ativos st)))).
Proof.
  rewrite get_atletas_run. cbn [fst].
  destruct (valor page 1) as [p|]; [|done].
  destruct (valor per_page 20) as [k|]; [|done].
  case_decide; [|done].
  cbn zeta. unfold paginate. cbn [body items total pages]. intros [= <- <- _ _].
  split_and!.
  - apply Forall_forall. intros a Ha%subseteq_take%subseteq_drop.
    unfold atletas_listados, order_by_ranking in Ha.
    rewrite ordena_Permutation in Ha.
    apply filter_by_pais_elem in Ha as [Ha Hp].
    apply filter_by_categoria_elem in Ha as [Ha Hc].
    apply list_elem_of_filter in Ha as [? ?]. done.
  - apply sorted_take_ordem, StronglySorted_drop, order_by_ranking_sorted.
  - apply sorted_take_ordem, StronglySorted_drop, order_by_ranking_sorted.
  - unfold atletas_listados, order_by_ranking. by rewrite ordena_Permutation.
Qed.

(** X15. The ranking is the top of the list. For a requested limit [n]
    from 0 to below 2^63 (50 if absent) the ranking holds [min n m]
    athletes, where [m] is the number of active athletes passing the
    category filter; together with the athletes left out it is exactly those
    athletes, each once; and nobody left out is ranked before somebody
    listed (an athlete without position is left out before any athlete with
    one is). *)
Theorem get_ranking_top (env : Env) (cat : option string) (limit : int_arg)
    (st : Store) (n : Z) :
  limit_pedido limit = Some n →
  0 ≤ n →
  n < 2 ^ 63 →
  ∃ l rest : list Atleta,
    body (get_ranking env cat limit st).1 = BRanking l (default "Geral" (given cat))
    ∧ l ++ rest ≡ₚ filter_by_categoria cat (atletas_ativos st)
    ∧ length l
      = (Z.to_nat n `min` length (filter_by_categoria cat (atletas_ativos st)))%nat
    ∧ (∀ a b, a ∈ l → b ∈ rest → ranking_le a b)
    ∧ Forall (λ a, ∀ c, given cat = Some c → categoria a = JStr c) l.
Proof.
  intros Hl Hn Hlt. rewrite get_ranking_run. cbn zeta. cbn [fst]. rewrite Hl.
  rewrite decide_True by (by apply fits_int64_limit).
  rewrite decide_True by done. cbn [body].
  set (rows := order_by_ranking _).
  assert (rows ≡ₚ filter_by_categoria cat (atletas_ativos st)) as Hperm
    by apply ordena_Permutation.
  exists (take (Z.to_nat n) rows), (drop (Z.to_nat n) rows). split_and!.
  - done.
  - by rewrite take_drop.
  - by rewrite length_take, Hperm.
  - pose proof (order_by_ranking_sorted
                  (filter_by_categoria cat (atletas_ativos st))) as Hs.
    fold rows in Hs. rewrite <-(take_drop (Z.to_nat n) rows) in Hs.
    intros a b Ha Hb. by eapply StronglySorted_app_1_elem_of.
  - apply Forall_forall. intros a Ha%subseteq_take. rewrite Hperm in Ha.
    by apply filter_by_categoria_elem in Ha as [_ ?].
Qed.

(** X16. The ranking is the first page of the listing. For a limit
    [n >= 1], the ranking of a category holds the same athletes, in the same
    order, as page 1 of the athlete listing with that category, no country
    filter and [n] per page. *)
Theorem get_ranking_is_first_page (env : Env) (cat : option string) (n : Z)
    (st : Store) :
  1 ≤ n →
  atletas_da_resposta (get_ranking env cat (ArgInt n) st).1
  = atletas_da_resposta (get_atletas cat None (ArgInt 1) (ArgInt n) st).1.
Proof.
  intros Hn. rewrite get_ranking_run, get_atletas_run. cbn zeta.
  cbn [limit_pedido valor fst].
  unfold page_offset, page_limit.
  rewrite !(decide_False (P := n < 1)) by lia.
  rewrite !(decide_False (P := 1 < 1)) by lia.
  rewrite Z.sub_diag, Z.mul_0_l.
  destruct (decide (fits_int64 n)) as [Hfit|Hfit].
  - rewrite decide_True by lia.
    rewrite decide_True by (split; [done|unfold fits_int64; lia]).
    unfold paginate. rewrite !decide_False by lia.
    cbn [atletas_da_resposta body items]. by rewrite Z.sub_diag.
  - rewrite decide_False by tauto. done.
Qed.

(** ** What no request does *)

Lemma serve_atletas (env : Env) (r : request) (st : Store) :
  atletas (serve env r st).2 = atletas st
  ∨ ∃ a, atletas (serve env r st).2 = atletas st ++ [a]
         ∧ email a ∉ email <$> atletas st.
Proof.
  pose proof (read_only_store env r st) as Hro.
  destruct r as [| p | | | now tape t c | p id | p]; simpl in *;
    try (left; by rewrite Hro).
  - destruct (create_atleta_cases env p st)
      as [[_ ->]|(d & e & n & nasc & -> & He & Hf & Hn & Hd)]; [by left|].
    right. rewrite (create_atleta_ok env d st e n nasc) by done. cbn [snd].
    eexists. split; [done|]. apply atleta_com_email_None.
    unfold atleta_do_corpo. cbn. by rewrite He.
  - left.
    destruct (decide (length (filter (confirmada t c) (inscricoes st)) < 2)%nat).
    + by rewrite gerar_chaveamento_few.
    + rewrite gerar_chaveamento_ok by lia. cbn zeta. cbn [snd].
      unfold add_jogos. cbn [atletas]. apply upsert_atletas.
  - left. by destruct (inserir_resultado_store env p id st) as [->|(j' & ->)].
  - left. by destruct (criar_inscricao_store env p st) as [->|(i & _ & ->)].
Qed.

Lemma serve_inscricoes (env : Env) (r : request) (st : Store) :
  inscricoes (serve env r st).2 = inscricoes st
  ∨ ∃ i, inscricoes (serve env r st).2 = inscricoes st ++ [i]
         ∧ (tripla i ∉ tripla <$> inscricoes st)
         ∧ i_status i = inscricao_status_default env.
Proof.
  pose proof (read_only_store env r st) as Hro.
  destruct r as [| p | | | now tape t c | p id | p]; simpl in *;
    try (left; by rewrite Hro).
  - left. by destruct (create_atleta_store env p st) as [->|(a & _ & ->)].
  - left.
    destruct (decide (length (filter (confirmada t c) (inscricoes st)) < 2)%nat).
    + by rewrite gerar_chaveamento_few.
    + rewrite gerar_chaveamento_ok by lia. cbn zeta. cbn [snd].
      unfold add_jogos. cbn [inscricoes]. apply upsert_inscricoes.
  - left. by destruct (inserir_resultado_store env p id st) as [->|(j' & ->)].
  - destruct (criar_inscricao_cases env p st)
      as [[_ ->]|(d & t & c & a & -> & Ht & Hc & Ha & Hf)]; [by left|].
    right. rewrite (criar_inscricao_ok env d st t c a) by done. cbn [snd].
    eexists. split; [done|]. split; [|done].
    apply inscricao_existente_None in Hf.
    unfold inscricao_do_corpo, tripla. cbn. by rewrite Ht, Hc, Ha.
Qed.

(** X18. No request makes two athletes share an email: if the emails of the
    stored athletes are pairwise different, they still are after any request
    of the modelled routes. *)
Theorem serve_emails_unicos (env : Env) (r : request) (st : Store) :
  emails_unicos st → emails_unicos (serve env r st).2.
Proof.
  unfold emails_unicos. intros Hnd.
  destruct (serve_atletas env r st) as [->|(a & -> & Hfresh)]; [done|].
  rewrite fmap_app. apply NoDup_app. split_and!; [done| |apply NoDup_singleton].
  intros x Hx ->%list_elem_of_singleton. done.
Qed.

(** X19. No request makes two registrations share their (tournament,
    category, athlete) triple: if the triples of the stored registrations are
    pairwise different, they still are after any request of the modelled
    routes. *)
Theorem serve_inscricoes_unicas (env : Env) (r : request) (st : Store) :
  inscricoes_unicas st → inscricoes_unicas (serve env r st).2.
Proof.
  unfold inscricoes_unicas. intros Hnd.
  destruct (serve_inscricoes env r st) as [->|(i & -> & Hfresh & _)]; [done|].
  rewrite fmap_app. apply NoDup_app. split_and!; [done| |apply NoDup_singleton].
  intros x Hx ->%list_elem_of_singleton. done.
Qed.

(** X20. No request deletes a row, renumbers one, or touches a stored athlete
    or registration: after any request the athlete and registration tables
    begin with the rows they had, unchanged, and the id columns of the match
    and bracket tables begin with the ids they had. The three GET routes
    change nothing at all. *)
Theorem serve_only_appends (env : Env) (r : request) (st : Store) :
  let st' := (serve env r st).2 in
  atletas st `prefix_of` atletas st'
  ∧ inscricoes st `prefix_of` inscricoes st'
  ∧ (jogo_id <$> jogos st) `prefix_of` (jogo_id <$> jogos st')
  ∧ (chaveamento_id <$> chaveamentos st) `prefix_of` (chaveamento_id <$> chaveamentos st')
  ∧ (match r with
     | GetAtletas _ _ _ _ | GetRanking _ _ | GetChaveamento _ _ => st' = st
     | _ => True
     end).
Proof.
  intros st'. subst st'. split_and!.
  - destruct (serve_atletas env r st) as [->|(a & -> & _)];
      [done|by apply prefix_app_r].
  - destruct (serve_inscricoes env r st) as [->|(i & -> & _)];
      [done|by apply prefix_app_r].
  - pose proof (read_only_store env r st) as Hro.
    destruct r as [| p | | | now tape t c | p id | p]; simpl in *;
      try (by rewrite Hro).
    + by destruct (create_atleta_store env p st) as [->|(a & _ & ->)].
    + destruct (decide (length (filter (confirmada t c) (inscricoes st)) < 2)%nat).
      * by rewrite gerar_chaveamento_few.
      * rewrite gerar_chaveamento_ok by lia. cbn zeta. cbn [snd].
        unfold add_jogos. cbn [jogos]. rewrite upsert_jogos, fmap_app.
        by apply prefix_app_r.
    + destruct (inserir_resultado_store env p id st) as [->|(j' & ->)]; [done|].
      by rewrite write_jogo_ids.
    + by destruct (criar_inscricao_store env p st) as [->|(i & _ & ->)].
  - pose proof (read_only_store env r st) as Hro.
    destruct r as [| p | | | now tape t c | p id | p]; simpl in *;
      try (by rewrite Hro).
    + by destruct (create_atleta_store env p st) as [->|(a & _ & ->)].
    + destruct (decide (length (filter (confirmada t c) (inscricoes st)) < 2)%nat).
      * by rewrite gerar_chaveamento_few.
      * rewrite gerar_chaveamento_chaveamentos by lia. cbn zeta.
        destruct (first_chaveamento t c st).
        -- by rewrite overwrite_ids.
        -- rewrite fmap_app. by apply prefix_app_r.
    + by destruct (inserir_resultado_store env p id st) as [->|(j' & ->)].
    + by destruct (criar_inscricao_store env p st) as [->|(i & _ & ->)].
  - by apply read_only_store.
Qed.

(** X21. No route confirms a registration. Unless the status column's
    default is "confirmada", the confirmed registrations of every
    (tournament, category) pair are the same after any request as before, so
    the input of bracket generation cannot be changed through these routes;
    and with that default, a request adds at most the one registration it
    creates. *)
Theorem serve_confirmadas (env : Env) (r : request) (st : Store) (t c : Z) :
  let antes := filter (confirmada t c) (inscricoes st) in
  let depois := filter (confirmada t c) (inscricoes (serve env r st).2) in
  (inscricao_status_default env ≠ Some "confirmada" → depois = antes)
  ∧ (depois = antes ∨ ∃ i p, depois = antes ++ [i] ∧ r = PostInscricao p).
Proof.
  intros antes depois. subst antes depois.
  destruct (serve_inscricoes env r st) as [->|(i & Hi & _ & Hst)].
  { split; [done|by left]. }
  rewrite Hi, filter_app, filter_cons, filter_nil.
  assert (∃ p, r = PostInscricao p) as [p0 Hr].
  { pose proof (read_only_store env r st) as Hro.
    assert (length (inscricoes (serve env r st).2) ≠ length (inscricoes st)) as Hlen
      by (rewrite Hi, length_app; simpl; lia).
    destruct r as [| p | | | now tape t' c' | p id | p]; simpl in *;
      try (by rewrite Hro in Hlen); try (by eexists); exfalso; apply Hlen.
    - by destruct (create_atleta_store env p st) as [->|(a & _ & ->)].
    - destruct (decide (length (filter (confirmada t' c') (inscricoes st)) < 2)%nat).
      + by rewrite gerar_chaveamento_few.
      + rewrite gerar_chaveamento_ok by lia. cbn zeta. cbn [snd].
        unfold add_jogos. cbn [inscricoes]. by rewrite upsert_inscricoes.
    - by destruct (inserir_resultado_store env p id st) as [->|(j' & ->)]. }
  split.
  - intros Hdef. rewrite decide_False; [by rewrite app_nil_r|].
    intros (_ & _ & Hs). congruence.
  - case_decide; [right; eauto|left; by rewrite app_nil_r].
Qed.

(** ** Listings of a tournament *)

Lemma get_inscricoes_torneio_run (be : Backend) (t : Z) (arg : option string)
    (st : Store) :
  get_inscricoes_torneio be t arg st =
    (match given arg with
     | None =>
         {| codigo := 200;
            corpo := CInscricoes
                       (filter (λ i, i_torneio_id i = JNum t) (inscricoes st)) |}
     | Some s =>
         match text_filter be s with
         | Some f =>
             {| codigo := 200;
                corpo := CInscricoes
                           (filter (λ i, f (i_categoria_id i) = true)
                              (filter (λ i, i_torneio_id i = JNum t)
                                 (inscricoes st))) |}
         | None => {| codigo := 500; corpo := CException StorageError |}
         end
     end, st).
Proof.
  unfold get_inscricoes_torneio, responder_ro, get_inscricoes_torneio_body,
    filter_by_text.
  run_session. destruct (given arg) as [s|]; run_session; [|done].
  by destruct (text_filter be s); run_session.
Qed.


(** X23. Register, then list. Over a registration table whose ids are
    integers, after a registration with three integer ids (tournament [t])
    for a triple that no stored registration has, with no partner or an
    integer one and no team name or a text, the registration listing of
    tournament [t] (no category parameter) is the listing from before
    followed by the new registration. *)
Theorem criar_inscricao_then_listed (env : Env) (be : Backend)
    (d : gmap string jval) (st : Store) (t : Z) (c a : jval) :
  let out := criar_inscricao env (JsonObject d) st in
  inscricoes_tipadas st →
  d !! "torneio_id" = Some (JNum t) →
  d !! "categoria_id" = Some c →
  d !! "atleta_id" = Some a →
  fits_int64 t → inteiro c → inteiro a →
  opcionais_da_inscricao d →
  (JNum t, c, a) ∉ tripla <$> inscricoes st →
  ∃ i l,
    out.1 = {| status := 201; body := BInscricao i |}
    ∧ corpo (get_inscricoes_torneio be t None st).1 = CInscricoes l
    ∧ corpo (get_inscricoes_torneio be t None out.2).1 = CInscricoes (l ++ [i]).
Proof.
  intros out _ Ht Hc Ha _ _ _ _ Hfresh%inscricao_existente_None. subst out.
  rewrite (criar_inscricao_ok env d st (JNum t) c a) by done. cbn [fst snd].
  rewrite !get_inscricoes_torneio_run. cbn [given fst corpo].
  eexists _, _. split_and!; [done..|].
  unfold add_inscricao. cbn [inscricoes].
  rewrite filter_app, filter_cons, filter_nil.
  rewrite decide_True; [done|].
  unfold inscricao_do_corpo. cbn. by rewrite Ht.
Qed.

Lemma get_jogos_torneio_run (be : Backend) (t : Z) (cat status : option string)
    (st : Store) :
  get_jogos_torneio be t cat status st =
    (let by_status rows :=
       match given status with
       | Some s => filter (λ j, j_status j = Some s) rows
       | None => rows
       end in
     let rows := filter (λ j, j_torneio_id j = t) (jogos st) in
     match given cat with
     | None =>
         {| codigo := 200;
            corpo := CJogos (ordena (data_hora_asc be) (by_status rows)) |}
     | Some s =>
         match text_filter be s with
         | Some f =>
             {| codigo := 200;
                corpo := CJogos
                           (ordena (data_hora_asc be)
                              (by_status
                                 (filter (λ j, f (JNum (j_categoria_id j)) = true)
                                    rows))) |}
         | None => {| codigo := 500; corpo := CException StorageError |}
         end
     end, st).
Proof.
  unfold get_jogos_torneio, responder_ro, get_jogos_torneio_body, filter_by_text.
  run_session. destruct (given cat) as [s|]; run_session; [|done].
  by destruct (text_filter be s); run_session.
Qed.


(** X25. Generate, then list. After a successful generation for a category
    of tournament [t], the match listing of [t] (no parameters) holds the
    matches it held before and the [N / 2] new ones, which are listed with
    the status column's default and without a date. *)
Theorem gerar_then_get_jogos_torneio (env : Env) (be : Backend) (now : Z)
    (tape : list nat) (t c : Z) (st : Store) :
  let out := gerar_chaveamento env now tape t c st in
  status out.1 = 201 →
  ∃ antes depois novos : list Jogo,
    (get_jogos_torneio be t None None st).1
    = {| codigo := 200; corpo := CJogos antes |}
    ∧ (get_jogos_torneio be t None None out.2).1
      = {| codigo := 200; corpo := CJogos depois |}
    ∧ depois ≡ₚ antes ++ novos
    ∧ length novos
      = (length (filter (confirmada t c) (inscricoes st)) / 2)%nat
    ∧ Forall (λ j, j_status j = jogo_status_default env ∧ data_hora j = None) novos.
Proof.
  intros out Hok%gerar_chaveamento_status. subst out.
  rewrite gerar_chaveamento_ok by done. cbn zeta. cbn [snd].
  rewrite !get_jogos_torneio_run. cbn zeta. cbn [given fst].
  set (novos := novos_jogos env t c _ _).
  eexists _, _, novos. split_and!; [done..| | |].
  - rewrite !ordena_Permutation. unfold add_jogos. cbn [jogos].
    rewrite upsert_jogos, filter_app. f_equiv.
    apply reflexive_eq, filter_every. intros j Hj.
    pose proof (novos_jogos_shape env t c
                  (pair_up (shuffle tape (filter (confirmada t c) (inscricoes st))))
                  (next_id (jogo_id <$> jogos st))) as Hshape.
    apply list_elem_of_lookup in Hj as [i Hi].
    by destruct (Forall2_lookup_l _ _ _ _ _ Hshape Hi) as (p & _ & ? & _).
  - unfold novos. by rewrite novos_jogos_length, pair_up_length, shuffle_length.
  - unfold novos. generalize (next_id (jogo_id <$> jogos st)).
    induction (pair_up _) as [|[a b] ps IH]; intros id; constructor; [done|].
    apply IH.
Qed.

(** ** Tournaments *)

Lemma get_torneios_run (be : Backend) (status : option string)
    (page per_page : int_arg) (d : Database) :
  get_torneios be status page per_page d =
    (match valor page 1, valor per_page 10 with
     | Some p, Some k =>
         let rows :=
           match given status with
           | Some s => filter (λ t, t_status t = Some s) (torneios d)
           | None => torneios d
           end in
         if decide (fits_int64 (page_limit k) ∧ fits_int64 (page_offset p k)) then
           let pg := paginate p k (ordena (data_inicio_desc be) rows) in
           {| codigo := 200; corpo := CTorneios (items pg) (total pg) (pages pg) p |}
         else {| codigo := 500; corpo := CException StorageError |}
     | _, _ => {| codigo := 500; corpo := CException ValueError |}
     end, d).
Proof.
  unfold get_torneios, handle_roD, get_torneios_body.
  destruct d as [st ts cs].
  destruct page, per_page; cbn [valor]; run_sessionD; unfold with_store;
    try (by cbn);
    unfold paginate_query; repeat case_decide; run_sessionD; by cbn.
Qed.

(** X26. The tournament listing. It never changes the database; a [page] or
    [per_page] that is not an integer is answered 500, and without them the
    answer is page 1 with 10 per page. Every tournament of an answer is a
    stored one and has exactly the requested status when a non-empty
    [status] is given; start dates descend along the page; and the reported
    total is the number of stored tournaments passing the filter. *)
Theorem get_torneios_lists (be : Backend) (status : option string)
    (page per_page : int_arg) (d : Database) :
  let out := get_torneios be status page per_page d in
  out.2 = d
  ∧ (page = ArgMalformed ∨ per_page = ArgMalformed →
       out.1 = {| codigo := 500; corpo := CException ValueError |})
  ∧ get_torneios be status ArgMissing ArgMissing d
    = get_torneios be status (ArgInt 1) (ArgInt 10) d
  ∧ (∀ l tot pgs cur, corpo out.1 = CTorneios l tot pgs cur →
       Forall (λ t, t ∈ torneios d
                    ∧ ∀ s, given status = Some s → t_status t = Some s) l
       ∧ datas_descendentes l
       ∧ tot = Z.of_nat (length (filter (torneio_com_status status) (torneios d)))).
Proof.
  intros out. subst out. rewrite !get_torneios_run. cbn [fst snd].
  split_and!; [done| |done|].
  { intros [-> | ->]; cbn [valor]; [done|]. by destruct (valor page 1). }
  intros l tot pgs cur.
  destruct (valor page 1) as [p|]; [|done].
  destruct (valor per_page 10) as [k|]; [|done].
  case_decide; [|done].
  cbn zeta. unfold paginate. cbn [corpo items total pages].
  set (rows := match given status with
               | Some s => filter (λ t, t_status t = Some s) (torneios d)
               | None => torneios d
               end).
  intros [= <- <- _ _].
  assert (∀ o, given status = o →
            match o with
            | Some s => filter (λ t, t_status t = Some s) (torneios d)
            | None => torneios d
            end = filter (torneio_com_status status) (torneios d)) as Hcase.
  { intros [s|] E.
    - apply list_filter_iff. intros t. unfold torneio_com_status. by rewrite E.
    - symmetry. apply filter_every. intros t _. unfold torneio_com_status.
      by rewrite E. }
  assert (rows = filter (torneio_com_status status) (torneios d)) as Hrows
    by (by apply Hcase).
  split_and!.
  - apply Forall_forall. intros t Ht%subseteq_take%subseteq_drop.
    rewrite ordena_Permutation, Hrows in Ht.
    apply list_elem_of_filter in Ht as [Hs Hin]. split; [done|].
    intros s E. unfold torneio_com_status in Hs. by rewrite E in Hs.
  - intros i j a b x y Hij [Ha _]%lookup_take_Some [Hb _]%lookup_take_Some Hx Hy.
    revert Ha Hb. rewrite !lookup_drop. intros Ha Hb.
    pose proof (StronglySorted_ordena (data_inicio_desc be) rows) as Hs.
    assert (data_inicio_desc be a b) as Hle
      by (eapply StronglySorted_lookup_lt; [exact Hs| |exact Ha|exact Hb]; lia).
    unfold data_inicio_desc in Hle. by rewrite Hx, Hy in Hle.
  - by rewrite ordena_Permutation, Hrows.
Qed.















(** ** The further properties at work on the small database *)

Lemma create_atleta_created_witness :
  emails_tipados store_exemplo
  ∧ atleta_novo !! "email" = Some (JStr "n@x")
  ∧ (JStr "n@x" ∉ email <$> atletas store_exemplo)
  ∧ opcionais_do_atleta atleta_novo
  ∧ ∃ a, (create_atleta env_exemplo (JsonObject atleta_novo) store_exemplo).1
         = {| status := 201; body := BAtleta a |}
         ∧ atleta_id a = 5 ∧ email a = JStr "n@x" ∧ peso a = JNull.
Proof.
  assert (emails_tipados store_exemplo) as Hty by by_computation.
  assert (atleta_novo !! "email" = Some (JStr "n@x")) as He by (vm_compute; reflexivity).
  assert (JStr "n@x" ∉ email <$> atletas store_exemplo) as Hf by by_computation.
  assert (atleta_novo !! "nome" = Some (JStr "Nova")) as Hn by (vm_compute; reflexivity).
  assert (data_do_corpo env_exemplo atleta_novo = Some None) as Hd
    by (vm_compute; reflexivity).
  assert (opcionais_do_atleta atleta_novo) as Hop by by_computation.
  destruct (create_atleta_created env_exemplo atleta_novo store_exemplo _ _ _
              Hty He Hf Hn Hd Hop)
    as (a & Hout & _ & _ & Hmail & _ & _ & _ & Hpeso & _).
  split_and!; [exact Hty|exact He|exact Hf|exact Hop|]. exists a.
  split_and!; [exact Hout| |exact Hmail|exact Hpeso].
  revert Hout. vm_compute. by intros [= <-].
Defined.



Lemma criar_inscricao_created_witness :
  inscricoes_tipadas store_exemplo
  ∧ inteiro (JNum 1) ∧ inteiro (JNum 99)
  ∧ opcionais_da_inscricao inscricao_nova
  ∧ ((JNum 1, JNum 1, JNum 99) ∉ tripla <$> inscricoes store_exemplo)
  ∧ ∃ i, (criar_inscricao env_exemplo (JsonObject inscricao_nova) store_exemplo).1
         = {| status := 201; body := BInscricao i |}
         ∧ tripla i = (JNum 1, JNum 1, JNum 99)
         ∧ i_status i = Some "pendente".
Proof.
  assert (inscricoes_tipadas store_exemplo) as Hty by by_computation.
  assert (inscricao_nova !! "torneio_id" = Some (JNum 1)) as Ht by (vm_compute; reflexivity).
  assert (inscricao_nova !! "categoria_id" = Some (JNum 1)) as Hc by (vm_compute; reflexivity).
  assert (inscricao_nova !! "atleta_id" = Some (JNum 99)) as Ha by (vm_compute; reflexivity).
  assert (inteiro (JNum 1)) as H1 by by_computation.
  assert (inteiro (JNum 99)) as H99 by by_computation.
  assert (opcionais_da_inscricao inscricao_nova) as Hop by by_computation.
  assert ((JNum 1, JNum 1, JNum 99) ∉ tripla <$> inscricoes store_exemplo) as Hf
    by by_computation.
  destruct (criar_inscricao_created env_exemplo inscricao_nova store_exemplo _ _ _
              Hty Ht Hc Ha H1 H1 H99 Hop Hf)
    as (i & Hout & _ & _ & Htri & _ & _ & Hst & _).
  split_and!; [exact Hty|exact H1|exact H99|exact Hop|exact Hf|].
  exists i. split_and!; [exact Hout|exact Htri|exact Hst].
Defined.


Lemma criar_inscricao_rejects_witness :
  is_Some (({[ "torneio_id" := JNum 1 ]} : gmap string jval) !! "torneio_id")
  ∧ (criar_inscricao env_exemplo (JsonObject {[ "torneio_id" := JNum 1 ]})
       store_exemplo).1
    = {| status := 500; body := BException (KeyError "categoria_id") |}.
Proof.
  assert (is_Some (({[ "torneio_id" := JNum 1 ]} : gmap string jval) !! "torneio_id"))
    as Ht by (eexists; vm_compute; reflexivity).
  assert (({[ "torneio_id" := JNum 1 ]} : gmap string jval) !! "categoria_id" = None)
    as Hc by (vm_compute; reflexivity).
  destruct (criar_inscricao_rejects env_exemplo (JsonObject {[ "torneio_id" := JNum 1 ]})
              store_exemplo) as (_ & _ & _ & Hkey & _).
  split; [exact Ht|]. exact (Hkey _ eq_refl Ht Hc).
Defined.

Lemma inserir_resultado_rejects_witness :
  is_Some (get_jogo 1 store_exemplo)
  ∧ inserir_resultado env_exemplo (JsonObject {[ "placar_equipe1" := JNum 2 ]}) 1
      store_exemplo
    = ({| status := 500; body := BException (KeyError "placar_equipe2") |},
       store_exemplo)
  ∧ coluna_placar env_exemplo (JNum (2 ^ 63)) = None
  ∧ inserir_resultado env_exemplo (JsonObject placar_grande) 1 store_exemplo
    = ({| status := 500; body := BException StorageError |}, store_exemplo).
Proof.
  assert (is_Some (get_jogo 1 store_exemplo)) as Hj by (by eexists).
  assert (is_Some (({[ "placar_equipe1" := JNum 2 ]} : gmap string jval)
                     !! "placar_equipe1")) as H1 by (eexists; vm_compute; reflexivity).
  assert (({[ "placar_equipe1" := JNum 2 ]} : gmap string jval) !! "placar_equipe2"
          = None) as H2 by (vm_compute; reflexivity).
  assert (placar_grande !! "placar_equipe1" = Some (JNum (2 ^ 63))) as Hg1
    by (vm_compute; reflexivity).
  assert (placar_grande !! "placar_equipe2" = Some (JNum 1)) as Hg2
    by (vm_compute; reflexivity).
  assert (coluna_placar env_exemplo (JNum (2 ^ 63)) = None) as Hno
    by (vm_compute; reflexivity).
  destruct (inserir_resultado_rejects env_exemplo
              (JsonObject {[ "placar_equipe1" := JNum 2 ]}) 1 store_exemplo)
    as (_ & _ & _ & Hkey & _).
  destruct (inserir_resultado_rejects env_exemplo (JsonObject placar_grande) 1
              store_exemplo) as (_ & _ & _ & _ & Hrefused & _).
  split_and!; [exact Hj|exact (Hkey _ eq_refl Hj H1 H2)|exact Hno|].
  exact (Hrefused _ _ _ eq_refl Hj Hg1 Hg2 (or_introl Hno)).
Defined.

Lemma inserir_resultado_last_wins_witness :
  is_Some (get_jogo 1 store_exemplo)
  ∧ is_Some (coluna_placar env_exemplo (JNum 0))
  ∧ is_Some (coluna_placar env_exemplo (JNum 3))
  ∧ inserir_resultado env_exemplo (JsonObject placar_outro) 1
      (inserir_resultado env_exemplo (JsonObject placar_exemplo) 1 store_exemplo).2
    = inserir_resultado env_exemplo (JsonObject placar_outro) 1 store_exemplo.
Proof.
  assert (is_Some (get_jogo 1 store_exemplo)) as Hj by (by eexists).
  assert (placar_outro !! "placar_equipe1" = Some (JNum 0)) as H1
    by (vm_compute; reflexivity).
  assert (placar_outro !! "placar_equipe2" = Some (JNum 3)) as H2
    by (vm_compute; reflexivity).
  assert (is_Some (coluna_placar env_exemplo (JNum 0))) as Hw1
    by (eexists; vm_compute; reflexivity).
  assert (is_Some (coluna_placar env_exemplo (JNum 3))) as Hw2
    by (eexists; vm_compute; reflexivity).
  assert (is_Some (coluna_observacoes env_exemplo
                     (default JNull (placar_outro !! "observacoes")))) as Ho
    by (eexists; vm_compute; reflexivity).
  split_and!; [exact Hj|exact Hw1|exact Hw2|].
  exact (inserir_resultado_last_wins env_exemplo (JsonObject placar_exemplo)
           placar_outro 1 store_exemplo _ _ Hj H1 H2 Hw1 Hw2 Ho).
Defined.

Lemma gerar_chaveamento_structure_witness :
  (2 ≤ length (filter (confirmada 1 1) (inscricoes store_exemplo)))%nat
  ∧ ∃ ch, (gerar_chaveamento env_exemplo 200 [3; 1; 4; 1]%nat 1 1 store_exemplo).1
          = {| status := 201; body := BChaveamento ch |}
          ∧ participantes (estrutura_json ch)
            ≡ₚ filter (confirmada 1 1) (inscricoes store_exemplo).
Proof.
  assert (2 ≤ length (filter (confirmada 1 1) (inscricoes store_exemplo)))%nat
    as HN by (vm_compute; lia).
  destruct (gerar_chaveamento_structure env_exemplo 200 [3; 1; 4; 1]%nat 1 1
              store_exemplo HN) as (ch & Hout & _ & _ & Hperm & _).
  split; [exact HN|]. exists ch. split; [exact Hout|exact Hperm].
Defined.

Lemma gerar_then_get_chaveamento_witness :
  status (gerar_chaveamento env_exemplo 200 [3; 1; 4; 1]%nat 1 1 store_exemplo).1 = 201
  ∧ ∃ ch js,
      body (gerar_chaveamento env_exemplo 200 [3; 1; 4; 1]%nat 1 1 store_exemplo).1
      = BChaveamento ch
      ∧ (get_chaveamento 1 1
           (gerar_chaveamento env_exemplo 200 [3; 1; 4; 1]%nat 1 1 store_exemplo).2).1
        = {| status := 200; body := BChaveamentoJogos ch js |}.
Proof.
  assert (status (gerar_chaveamento env_exemplo 200 [3; 1; 4; 1]%nat 1 1
                    store_exemplo).1 = 201) as Hok by reflexivity.
  destruct (gerar_then_get_chaveamento env_exemplo 200 [3; 1; 4; 1]%nat 1 1
              store_exemplo Hok) as (ch & js & Hb & Hget).
  split; [exact Hok|]. exists ch, js. split; [exact Hb|]. by rewrite Hget.
Defined.


Lemma get_atletas_pages_witness :
  1 ≤ 2 ∧ 2 < 2 ^ 63
  ∧ Z.of_nat (length (atletas store_exemplo)) < 2 ^ 63
  ∧ ∃ (n : nat) (all : list Atleta),
      mjoin (pagina None None 2 store_exemplo <$> seq 1 n) = all
      ∧ all ≡ₚ filter_by_pais None (filter_by_categoria None (atletas_ativos store_exemplo)).
Proof.
  assert (1 ≤ 2) as Hk by lia.
  assert (2 < 2 ^ 63) as Hk64 by lia.
  assert (Z.of_nat (length (atletas store_exemplo)) < 2 ^ 63) as Hlen
    by (vm_compute; reflexivity).
  destruct (get_atletas_pages None None 2 store_exemplo Hk Hk64 Hlen)
    as (n & all & _ & _ & Hjoin & Hperm & _).
  split_and!; [exact Hk|exact Hk64|exact Hlen|].
  exists n, all. split; [exact Hjoin|exact Hperm].
Defined.

Lemma get_atletas_parameters_witness :
  get_atletas None None ArgMalformed (ArgInt 2) store_exemplo
  = ({| status := 500; body := BException ValueError |}, store_exemplo).
Proof.
  destruct (get_atletas_parameters None None ArgMalformed (ArgInt 2) store_exemplo)
    as (_ & _ & Hbad & _).
  apply Hbad. by left.
Defined.

Lemma get_atletas_filters_witness :
  Forall (λ a, a ∈ atletas store_exemplo ∧ ativo a = Some true
               ∧ (∀ c, given (Some "open") = Some c → categoria a = JStr c)
               ∧ (∀ s, given (Some "BR") = Some s → pais a = JStr s))
    [atleta_exemplo 3 "c@x" (Some 1) true; atleta_exemplo 1 "a@x" (Some 2) true].
Proof.
  assert (body (get_atletas (Some "open") (Some "BR") (ArgInt 1) (ArgInt 2)
                  store_exemplo).1
          = BAtletas [atleta_exemplo 3 "c@x" (Some 1) true;
                      atleta_exemplo 1 "a@x" (Some 2) true] 3 2 1) as Hbody
    by (vm_compute; reflexivity).
  exact (proj1 (get_atletas_filters _ _ _ _ _ _ _ _ _ Hbody)).
Defined.

Lemma get_ranking_top_witness :
  limit_pedido (ArgInt 2) = Some 2
  ∧ ∃ l rest : list Atleta,
      body (get_ranking env_exemplo None (ArgInt 2) store_exemplo).1
      = BRanking l "Geral"
      ∧ length l = 2%nat
      ∧ ∀ a b, a ∈ l → b ∈ rest → ranking_le a b.
Proof.
  assert (limit_pedido (ArgInt 2) = Some 2) as Hl by reflexivity.
  assert (0 ≤ 2) as Hn by lia.
  assert (2 < 2 ^ 63) as Hlt by lia.
  destruct (get_ranking_top env_exemplo None (ArgInt 2) store_exemplo 2 Hl Hn Hlt)
    as (l & rest & Hb & _ & Hlen & Hle & _).
  split; [exact Hl|]. exists l, rest. split_and!; [exact Hb|exact Hlen|exact Hle].
Defined.

Lemma get_ranking_is_first_page_witness :
  1 ≤ 2
  ∧ atletas_da_resposta (get_ranking env_exemplo (Some "open") (ArgInt 2) store_exemplo).1
    = atletas_da_resposta
        (get_atletas (Some "open") None (ArgInt 1) (ArgInt 2) store_exemplo).1.
Proof.
  assert (1 ≤ 2) as Hn by lia.
  split; [exact Hn|].
  exact (get_ranking_is_first_page env_exemplo (Some "open") 2 store_exemplo Hn).
Defined.

Lemma store_exemplo_chaves_unicas : chaves_unicas store_exemplo.
Proof. constructor; by_computation. Qed.

Lemma serve_chaves_unicas_witness :
  chaves_unicas store_exemplo
  ∧ chaves_unicas
      (serve env_exemplo (PostGerarChaveamento 200 [3; 1; 4; 1]%nat 1 1)
         store_exemplo).2.
Proof.
  split; [exact store_exemplo_chaves_unicas|].
  exact (serve_chaves_unicas env_exemplo _ _ store_exemplo_chaves_unicas).
Defined.

Lemma serve_emails_unicos_witness :
  emails_unicos store_exemplo
  ∧ emails_unicos
      (serve env_exemplo (PostAtleta (JsonObject atleta_novo)) store_exemplo).2.
Proof.
  assert (emails_unicos store_exemplo) as H by by_computation.
  split; [exact H|]. exact (serve_emails_unicos env_exemplo _ _ H).
Defined.

Lemma serve_inscricoes_unicas_witness :
  inscricoes_unicas store_exemplo
  ∧ inscricoes_unicas
      (serve env_exemplo (PostInscricao (JsonObject inscricao_nova)) store_exemplo).2.
Proof.
  assert (inscricoes_unicas store_exemplo) as H by by_computation.
  split; [exact H|]. exact (serve_inscricoes_unicas env_exemplo _ _ H).
Defined.

Lemma serve_confirmadas_witness :
  inscricao_status_default env_exemplo ≠ Some "confirmada"
  ∧ filter (confirmada 1 1)
      (inscricoes (serve env_exemplo (PostInscricao (JsonObject inscricao_nova))
                     store_exemplo).2)
    = filter (confirmada 1 1) (inscricoes store_exemplo).
Proof.
  assert (inscricao_status_default env_exemplo ≠ Some "confirmada") as Hd by done.
  split; [exact Hd|].
  exact (proj1 (serve_confirmadas env_exemplo _ store_exemplo 1 1) Hd).
Defined.


Lemma criar_inscricao_then_listed_witness :
  inscricoes_tipadas store_exemplo
  ∧ ((JNum 1, JNum 1, JNum 99) ∉ tripla <$> inscricoes store_exemplo)
  ∧ ∃ i l,
      corpo (get_inscricoes_torneio backend_exemplo 1 None store_exemplo).1
      = CInscricoes l
      ∧ corpo (get_inscricoes_torneio backend_exemplo 1 None
                 (criar_inscricao env_exemplo (JsonObject inscricao_nova)
                    store_exemplo).2).1
        = CInscricoes (l ++ [i]).
Proof.
  assert (inscricoes_tipadas store_exemplo) as Hty by by_computation.
  assert (inscricao_nova !! "torneio_id" = Some (JNum 1)) as Ht by (vm_compute; reflexivity).
  assert (inscricao_nova !! "categoria_id" = Some (JNum 1)) as Hc by (vm_compute; reflexivity).
  assert (inscricao_nova !! "atleta_id" = Some (JNum 99)) as Ha by (vm_compute; reflexivity).
  assert (fits_int64 1) as H1 by by_computation.
  assert (inteiro (JNum 1)) as Hi1 by by_computation.
  assert (inteiro (JNum 99)) as Hi99 by by_computation.
  assert (opcionais_da_inscricao inscricao_nova) as Hop by by_computation.
  assert ((JNum 1, JNum 1, JNum 99) ∉ tripla <$> inscricoes store_exemplo) as Hf
    by by_computation.
  destruct (criar_inscricao_then_listed env_exemplo backend_exemplo inscricao_nova
              store_exemplo 1 _ _ Hty Ht Hc Ha H1 Hi1 Hi99 Hop Hf)
    as (i & l & _ & Hbefore & Hafter).
  split_and!; [exact Hty|exact Hf|]. exists i, l. split; [exact Hbefore|exact Hafter].
Defined.


Lemma gerar_then_get_jogos_torneio_witness :
  status (gerar_chaveamento env_exemplo 200 [3; 1; 4; 1]%nat 1 1 store_exemplo).1 = 201
  ∧ ∃ antes depois novos : list Jogo,
      (get_jogos_torneio backend_exemplo 1 None None store_exemplo).1
      = {| codigo := 200; corpo := CJogos antes |}
      ∧ (get_jogos_torneio backend_exemplo 1 None None
           (gerar_chaveamento env_exemplo 200 [3; 1; 4; 1]%nat 1 1 store_exemplo).2).1
        = {| codigo := 200; corpo := CJogos depois |}
      ∧ depois ≡ₚ antes ++ novos
      ∧ length novos = 2%nat.
Proof.
  assert (status (gerar_chaveamento env_exemplo 200 [3; 1; 4; 1]%nat 1 1
                    store_exemplo).1 = 201) as Hok by reflexivity.
  destruct (gerar_then_get_jogos_torneio env_exemplo backend_exemplo 200
              [3; 1; 4; 1]%nat 1 1 store_exemplo Hok)
    as (antes & depois & novos & H1 & H2 & Hperm & Hlen & _).
  split; [exact Hok|]. exists antes, depois, novos.
  split_and!; [exact H1|exact H2|exact Hperm|exact Hlen].
Defined.

Lemma get_torneios_lists_witness :
  Forall (λ t, t ∈ torneios database_exemplo
               ∧ ∀ s, given (Some "aberto") = Some s → t_status t = Some s)
    [torneio_exemplo].
Proof.
  assert (corpo (get_torneios backend_exemplo (Some "aberto") ArgMissing ArgMissing
                   database_exemplo).1 = CTorneios [torneio_exemplo] 1 1 1) as Hbody
    by (vm_compute; reflexivity).
  destruct (get_torneios_lists backend_exemplo (Some "aberto") ArgMissing ArgMissing
              database_exemplo) as (_ & _ & _ & Hall).
  exact (proj1 (Hall _ _ _ _ Hbody)).
Defined.




